(* Verification of the iso table-driven generator (src/macro/src/lib.rs)
   and of the runtime surface it generates (src/lib/src/country.rs,
   src/lib/src/language.rs). *)

From Stdlib Require Import String Ascii List NArith Bool Lia DecimalString.
Import ListNotations.
Open Scope string_scope.

(** * Rust strings as UTF-8 bytes

    A Rust [String]/[&str] is modelled by its UTF-8 encoding: a Rocq
    [string] whose [ascii] characters are the bytes.  [length] is then
    Rust's [str::len] (a byte count). *)
Module Utf8.

(** A UTF-8 continuation byte: [0b10xx_xxxx]. *)
Definition is_continuation (b : ascii) : bool :=
  (128 <=? N_of_ascii b)%N && (N_of_ascii b <? 192)%N.

(** [str::is_char_boundary]: index [len] is a boundary, an index past the
    end is not, otherwise the byte there must not be a continuation byte. *)
Definition is_char_boundary (s : string) (i : nat) : bool :=
  match i with
  | O => true
  | _ =>
      match get i s with
      | None => Nat.eqb i (String.length s)
      | Some b => negb (is_continuation b)
      end
  end.

(** [u8::make_ascii_uppercase] / [u8::make_ascii_lowercase]. *)
Definition to_ascii_uppercase (b : ascii) : ascii :=
  let n := N_of_ascii b in
  if ((97 <=? n) && (n <=? 122))%N then ascii_of_N (n - 32) else b.

Definition to_ascii_lowercase (b : ascii) : ascii :=
  let n := N_of_ascii b in
  if ((65 <=? n) && (n <=? 90))%N then ascii_of_N (n + 32) else b.

Fixpoint make_ascii_lowercase (s : string) : string :=
  match s with
  | EmptyString => EmptyString
  | String b r => String (to_ascii_lowercase b) (make_ascii_lowercase r)
  end.

(** UTF-8 encoding of a Unicode scalar value; every Rust string is the
    encoding of a list of scalar values. *)
Definition byte (n : N) : string := String (ascii_of_N n) EmptyString.

Definition encode_char (u : N) : string :=
  if (u <? 128)%N then byte u
  else if (u <? 2048)%N then
    byte (192 + u / 64) ++ byte (128 + u mod 64)
  else if (u <? 65536)%N then
    byte (224 + u / 4096) ++ byte (128 + (u / 64) mod 64)
      ++ byte (128 + u mod 64)
  else
    byte (240 + u / 262144) ++ byte (128 + (u / 4096) mod 64)
      ++ byte (128 + (u / 64) mod 64) ++ byte (128 + u mod 64).

Definition is_scalar (u : N) : bool :=
  (u <? 1114112)%N && negb ((55296 <=? u)%N && (u <? 57344)%N).

Fixpoint encode (cs : list N) : string :=
  match cs with
  | [] => EmptyString
  | u :: r => encode_char u ++ encode r
  end.

(** Number of characters of a UTF-8 string: its bytes that are not
    continuation bytes. *)
Fixpoint char_count (s : string) : nat :=
  match s with
  | EmptyString => O
  | String b r => (if is_continuation b then 0 else 1) + char_count r
  end.

End Utf8.

Import Utf8.

(** [ascii_formatter] (lib.rs 345-352):
    [string.get_mut(0..1)] succeeds iff index 1 is a char boundary, and
    then uppercases that one byte; [string.get_mut(1..)] succeeds iff index
    1 is a char boundary, and then lowercases the remainder. *)
Definition ascii_formatter (string : string) : String.string :=
  let string :=
    if is_char_boundary string 1 then
      match string with
      | String start rest => String (to_ascii_uppercase start) rest
      | EmptyString => EmptyString
      end
    else string in
  if is_char_boundary string 1 then
    match string with
    | String start remainder => String start (make_ascii_lowercase remainder)
    | EmptyString => EmptyString
    end
  else string.

(** The normalization as the spec words it, on the characters (Unicode
    scalar values) of the string: the first character ASCII-uppercased,
    every remaining character ASCII-lowercased. *)
Definition scalar_upper (u : N) : N :=
  if ((97 <=? u) && (u <=? 122))%N then (u - 32)%N else u.
Definition scalar_lower (u : N) : N :=
  if ((65 <=? u) && (u <=? 90))%N then (u + 32)%N else u.
Definition title_case_spec (cs : list N) : list N :=
  match cs with
  | [] => []
  | u :: r => scalar_upper u :: map scalar_lower r
  end.

(** * Generation-time effects

    A proc-macro invocation either panics (the build aborts; [Panic]) or
    produces a value ([Ret]). *)
Inductive Gen (A : Type) : Type :=
| Panic (msg : string)
| Ret (a : A).
Arguments Panic {A} msg.
Arguments Ret {A} a.

Definition gen_bind {A B} (m : Gen A) (k : A -> Gen B) : Gen B :=
  match m with
  | Panic msg => Panic msg
  | Ret a => k a
  end.

Notation "x <- m ;; k" := (gen_bind m (fun x => k))
  (at level 61, m at next level, right associativity).

Fixpoint gen_mapM {A B} (f : A -> Gen B) (l : list A) : Gen (list B) :=
  match l with
  | [] => Ret []
  | x :: r => y <- f x ;; ys <- gen_mapM f r ;; Ret (y :: ys)
  end.

(** Rust's [Result], used by the generated runtime code. *)
Inductive result (A E : Type) : Type :=
| Ok (a : A)
| Err (e : E).
Arguments Ok {A E} a.
Arguments Err {A E} e.

(** [proc_macro2::Ident::new] panics unless its argument is an identifier.
    Identifiers are checked on their ASCII spelling: a letter or [_] first,
    then letters, digits or [_]. *)
Definition is_ident_start (b : ascii) : bool :=
  let n := N_of_ascii b in
  ((65 <=? n) && (n <=? 90))%N || ((97 <=? n) && (n <=? 122))%N
  || (n =? 95)%N.

Definition is_ident_continue (b : ascii) : bool :=
  is_ident_start b || ((48 <=? N_of_ascii b) && (N_of_ascii b <=? 57))%N.

Fixpoint all_ident_continue (s : string) : bool :=
  match s with
  | EmptyString => true
  | String b r => is_ident_continue b && all_ident_continue r
  end.

Definition is_ident (s : string) : bool :=
  match s with
  | EmptyString => false
  | String b r => is_ident_start b && all_ident_continue r
  end.

Definition Ident_new (s : string) : Gen string :=
  if is_ident s then Ret s else Panic "not a valid Ident".

(** [str::parse::<u16>]: an optional [+], then at least one decimal digit,
    and no overflow past 65535. *)
Fixpoint parse_digits (acc : N) (s : string) : option N :=
  match s with
  | EmptyString => Some acc
  | String c r =>
      let d := N_of_ascii c in
      if ((48 <=? d) && (d <=? 57))%N then
        let acc' := (acc * 10 + (d - 48))%N in
        if (acc' <? 65536)%N then parse_digits acc' r else None
      else None
  end.

Definition parse_u16 (s : string) : option N :=
  match s with
  | EmptyString => None
  | String "+"%char EmptyString => None
  | String "+"%char r => parse_digits 0 r
  | _ => parse_digits 0 s
  end.

(** * The tokens emitted by the generator

    A row of the generated code is a bare literal, a bare identifier (an
    enumeration variant), or a match arm [pattern => expression]. *)
Inductive lit : Type :=
| LStr (s : string)
| LU16 (n : N).

Inductive pat : Type :=
| PLit (l : lit)
| PPath (path variant : string).

Inductive expr : Type :=
| ELit (l : lit)
| EPath (path variant : string)
| ESome (e : expr)
| ENone.

Inductive row : Type :=
| RLit (l : lit)
| RIdent (variant : string)
| RArm (p : pat) (e : expr).

(** The three shapes of macro output: an enumeration declaration, a
    [match] (with or without the trailing [_ => None] arm), or a
    [compile_error!]. *)
Inductive output : Type :=
| OEnum (name iso_code : string) (rows : list row)
| OMatch (match_against : string) (rows : list row) (fallback : bool)
| OCompileError (msg : string).

(** A parsed macro invocation; the boolean of each side is [true] when the
    side was written as a string literal. *)
Record GenerationInput (K : Type) : Type := {
  enumeration : option string;
  match_against : option string;
  lhs : K * bool;
  rhs : option (K * bool)
}.
Arguments enumeration {K} g.
Arguments match_against {K} g.
Arguments lhs {K} g.
Arguments rhs {K} g.

(** The common tail of both macros (lib.rs 489-527 and 627-665). *)
Definition assemble {K} (as_standard_code : K -> option string)
    (input : GenerationInput K) (rows : list row) (kind : string) : output :=
  match enumeration input with
  | Some enumeration_name =>
      match as_standard_code (fst (lhs input)) with
      | Some iso_code => OEnum enumeration_name iso_code rows
      | None => OCompileError kind
      end
  | None =>
      match match_against input with
      | Some m => OMatch m rows (snd (lhs input))
      | None => OCompileError "not enough information was provided"
      end
  end.

(** * Running the generated code *)
Inductive value : Type :=
| VStr (s : string)
| VU16 (n : N)
| VEnum (path variant : string)
| VSome (v : value)
| VNone.

Definition lit_value (l : lit) : value :=
  match l with
  | LStr s => VStr s
  | LU16 n => VU16 n
  end.

Definition pat_matches (p : pat) (v : value) : bool :=
  match p, v with
  | PLit (LStr s), VStr s' => String.eqb s s'
  | PLit (LU16 n), VU16 n' => N.eqb n n'
  | PPath path x, VEnum path' x' => String.eqb path path' && String.eqb x x'
  | _, _ => false
  end.

Fixpoint eval_expr (e : expr) : value :=
  match e with
  | ELit l => lit_value l
  | EPath path x => VEnum path x
  | ESome e => VSome (eval_expr e)
  | ENone => VNone
  end.

(** Rust [match]: the first arm whose pattern matches. *)
Fixpoint run_arms (rows : list row) (v : value) : option value :=
  match rows with
  | [] => None
  | RArm p e :: rest =>
      if pat_matches p v then Some (eval_expr e) else run_arms rest v
  | _ :: rest => run_arms rest v
  end.

Definition run_match (o : output) (v : value) : option value :=
  match o with
  | OMatch _ rows fallback =>
      match run_arms rows v with
      | Some r => Some r
      | None => if fallback then Some VNone else None
      end
  | _ => None
  end.

Definition enum_variants (o : output) : option (list string) :=
  match o with
  | OEnum _ _ rows =>
      Some (flat_map (fun r => match r with RIdent x => [x] | _ => [] end) rows)
  | _ => None
  end.

(** [Option::ok_or] applied to the value of a generated [match]. *)
Definition ok_or {E} (v : value) (e : E) : option (result value E) :=
  match v with
  | VSome x => Some (Ok x)
  | VNone => Some (Err e)
  | _ => None
  end.

(** The arms generated for [code()] ([Enum::V => "code"]) and for
    [from_str] (["code" => Some(Enum::V)]) over the records [l], where
    [field] reads a record's code and [path] is the enumeration. *)
Definition variant_of {A} (field : A -> string) (a : A) : string :=
  ascii_formatter (field a).
Definition code_arm {A} (field : A -> string) (path : string) (a : A) : row :=
  RArm (PPath path (variant_of field a)) (ELit (LStr (field a))).
Definition parse_arm {A} (field : A -> string) (path : string) (a : A) : row :=
  RArm (PLit (LStr (field a))) (ESome (EPath path (variant_of field a))).

(** A loader either emits a [Diagnostic] (and returns [None]) or returns
    the parsed records. *)
Inductive Loaded (A : Type) : Type :=
| Diagnostic (message note : string)
| Parsed (a : A).
Arguments Diagnostic {A} message note.
Arguments Parsed {A} a.

(** * The country generator ([country_identifiers_from_table]) *)
Module Country.

Record CountryEntry : Type := {
  name : string;
  alpha_2 : string;
  alpha_3 : string;
  country_code : string
}.

Inductive CountryIdentifierKey : Type :=
| Alpha2
| Alpha3
| Numeric
| Name.

Definition as_standard_code (k : CountryIdentifierKey) : option string :=
  match k with
  | Alpha2 => Some "3166-1 alpha-2"
  | Alpha3 => Some "3166-1 alpha-3"
  | Numeric => Some "3166-1 numeric"
  | Name => None
  end.

(** [TryInto<&'static str>] followed by [.unwrap()]. *)
Definition key_path (k : CountryIdentifierKey) : Gen string :=
  match k with
  | Alpha2 => Ret "Iso3166_1_alpha_2"
  | Alpha3 => Ret "Iso3166_1_alpha_3"
  | _ => Panic "called `Result::unwrap()` on an `Err` value"
  end.

(** [TryFrom<String>]: the name of a key, compared after [to_lowercase].
    [str::to_lowercase] is modelled by [make_ascii_lowercase]: the two
    agree on ASCII text, and the lowercase of a non-ASCII character holds
    a non-ASCII character under both, save the Kelvin sign, which lowers
    to [k], a letter none of the names contains; so the comparison with
    the (ASCII) names has the same outcome on every string. *)
Definition try_from (string : String.string) : result CountryIdentifierKey String.string :=
  let s := make_ascii_lowercase string in
  if String.eqb s "iso3166_1_alpha_2" then Ok Alpha2
  else if String.eqb s "iso3166_1_alpha_3" then Ok Alpha3
  else if String.eqb s "iso3166_1_numeric" then Ok Numeric
  else if String.eqb s "name" then Ok Name
  else Err "unable to find a matching variant".

(** The literal produced for a key (a string, or the numeric code parsed
    with [.parse().unwrap()]). *)
Definition literal (k : CountryIdentifierKey) (codes : CountryEntry)
    : Gen lit :=
  match k with
  | Alpha2 => Ret (LStr (alpha_2 codes))
  | Alpha3 => Ret (LStr (alpha_3 codes))
  | Numeric =>
      match parse_u16 (country_code codes) with
      | Some n => Ret (LU16 n)
      | None => Panic "called `Result::unwrap()` on an `Err` value"
      end
  | Name => Ret (LStr (name codes))
  end.

(** The raw string of a key used on an identifier side. *)
Definition identifier_string (k : CountryIdentifierKey) (codes : CountryEntry)
    : Gen string :=
  match k with
  | Alpha2 => Ret (alpha_2 codes)
  | Alpha3 => Ret (alpha_3 codes)
  | Numeric => Panic "numeric identifiers cannot be used as an identifier"
  | Name => Panic "names cannot be used as an identifier"
  end.

(** The identifier of a key: [ascii_formatter] then [Ident::new]. *)
Definition identifier (k : CountryIdentifierKey) (codes : CountryEntry)
    : Gen string :=
  s <- identifier_string k codes ;; Ident_new (ascii_formatter s).

(** The body of the loop over the dataset (lib.rs 367-486). *)
Definition country_row (lhs : CountryIdentifierKey * bool)
    (rhs : option (CountryIdentifierKey * bool)) (codes : CountryEntry)
    : Gen row :=
  match lhs, rhs with
  | (lhs_key, true), None =>
      l <- match lhs_key with
           | Alpha2 => Ret (alpha_2 codes)
           | Alpha3 => Ret (alpha_3 codes)
           | Numeric => Panic "numeric identifiers cannot be used alone"
           | Name => Panic "names cannot be used alone"
           end ;;
      Ret (RLit (LStr l))
  | (lhs_key, false), None =>
      x <- identifier lhs_key codes ;; Ret (RIdent x)
  | (lhs_key, true), Some (rhs_key, true) =>
      l <- literal lhs_key codes ;; r <- literal rhs_key codes ;;
      Ret (RArm (PLit l) (ELit r))
  | (lhs_key, false), Some (rhs_key, true) =>
      x <- identifier lhs_key codes ;; lhs_path <- key_path lhs_key ;;
      r <- literal rhs_key codes ;;
      Ret (RArm (PPath lhs_path x) (ELit r))
  | (lhs_key, true), Some (rhs_key, false) =>
      l <- literal lhs_key codes ;;
      y <- identifier rhs_key codes ;; rhs_path <- key_path rhs_key ;;
      Ret (RArm (PLit l) (ESome (EPath rhs_path y)))
  | (lhs_key, false), Some (rhs_key, false) =>
      x <- identifier lhs_key codes ;; lhs_path <- key_path lhs_key ;;
      y <- identifier rhs_key codes ;; rhs_path <- key_path rhs_key ;;
      Ret (RArm (PPath lhs_path x) (EPath rhs_path y))
  end.

Definition country_identifiers_from_table (country_codes : list CountryEntry)
    (input : GenerationInput CountryIdentifierKey) : Gen output :=
  rows <- gen_mapM (country_row (lhs input) (rhs input)) country_codes ;;
  Ret (assemble as_standard_code input rows
         "the selected key to generate an enumeration from does not have a corresponding iso standard").

(** ** The invocations of src/lib/src/country.rs *)

Definition request (e m : option string) (l : CountryIdentifierKey * bool)
    (r : option (CountryIdentifierKey * bool))
    : GenerationInput CountryIdentifierKey :=
  {| enumeration := e; match_against := m; lhs := l; rhs := r |}.

(** Result of running a generated [match] on a value. *)
Definition run (ds : list CountryEntry) (input : GenerationInput CountryIdentifierKey)
    (v : value) : option value :=
  match country_identifiers_from_table ds input with
  | Ret o => run_match o v
  | Panic _ => None
  end.

(** [country_identifiers_from_table!(enum Iso3166_1_alpha_2: iso3166_1_alpha_2)] *)
Definition variants (ds : list CountryEntry) (k : CountryIdentifierKey)
    : option (list string) :=
  match country_identifiers_from_table ds
          (request (match key_path k with Ret p => Some p | Panic _ => None end)
             None (k, false) None) with
  | Ret o => enum_variants o
  | Panic _ => None
  end.

Inductive Error : Type :=
| InvalidCountryCode (c : string).

Definition enum_value (k : CountryIdentifierKey) (v : string) : value :=
  VEnum (match key_path k with Ret p => p | Panic _ => EmptyString end) v.

(** [Country::code]: [match &self: $country => $country_as_string]. *)
Definition code (ds : list CountryEntry) (k : CountryIdentifierKey) (v : string)
    : option value :=
  run ds (request None (Some "&self") (k, false) (Some (k, true))) (enum_value k v).

(** [Country::numeric]: [match &self: $country => "Iso3166_1_numeric"]. *)
(** [Country::name]: [match &self: $country => "name"]; the method is
    [name] in the source, a name the record field takes here. *)
Definition name_method (ds : list CountryEntry) (k : CountryIdentifierKey) (v : string)
    : option value :=
  run ds (request None (Some "&self") (k, false) (Some (Name, true))) (enum_value k v).

Definition numeric (ds : list CountryEntry) (k : CountryIdentifierKey) (v : string)
    : option value :=
  run ds (request None (Some "&self") (k, false) (Some (Numeric, true)))
    (enum_value k v).

(** [TryFrom<u16>]: [match c: "Iso3166_1_numeric" => $country] then
    [.ok_or(Error::InvalidCountryCode(c.to_string()))]. *)
Definition try_from_u16 (ds : list CountryEntry) (k : CountryIdentifierKey) (c : N)
    : option (result value Error) :=
  match run ds (request None (Some "c") (Numeric, true) (Some (k, false))) (VU16 c) with
  | Some r => ok_or r (InvalidCountryCode (NilEmpty.string_of_uint (N.to_uint c)))
  | None => None
  end.

(** [FromStr]: [match s: $country_as_string => $country] then [.ok_or(..)]. *)
Definition from_str (ds : list CountryEntry) (k : CountryIdentifierKey) (s : string)
    : option (result value Error) :=
  match run ds (request None (Some "s") (k, true) (Some (k, false))) (VStr s) with
  | Some r => ok_or r (InvalidCountryCode s)
  | None => None
  end.

(** [From<$from> for $to]: [match c: $from => $to]. *)
Definition convert (ds : list CountryEntry) (from to : CountryIdentifierKey) (v : string)
    : option value :=
  run ds (request None (Some "c") (from, false) (Some (to, false))) (enum_value from v).

(** The field of a record a key names, and the parsed numeric code. *)
Definition code_field (k : CountryIdentifierKey) (c : CountryEntry) : string :=
  match k with
  | Alpha2 => alpha_2 c
  | Alpha3 => alpha_3 c
  | Numeric => country_code c
  | Name => name c
  end.

Definition numeric_of (c : CountryEntry) : N :=
  match parse_u16 (country_code c) with
  | Some n => n
  | None => 0%N
  end.

(** The keys the generator refuses on an identifier side or alone. *)
Definition unusable_key (k : CountryIdentifierKey) : Prop := k = Numeric \/ k = Name.

Definition us : CountryEntry :=
  {| name := "United States of America"; alpha_2 := "US"; alpha_3 := "USA";
     country_code := "840" |}.
Definition fr : CountryEntry :=
  {| name := "France"; alpha_2 := "FR"; alpha_3 := "FRA"; country_code := "250" |}.
Definition sample : list CountryEntry := [fr; us].

End Country.

(** * The language table loader and generator *)
Module Language.

Inductive LanguageTableEntryKey : Type :=
| Iso639_3
| Iso639_2b
| Iso639_2t
| Iso639_1
| Name.

Definition key_eqb (a b : LanguageTableEntryKey) : bool :=
  match a, b with
  | Iso639_3, Iso639_3 | Iso639_2b, Iso639_2b | Iso639_2t, Iso639_2t
  | Iso639_1, Iso639_1 | Name, Name => true
  | _, _ => false
  end.

Definition as_standard_code (k : LanguageTableEntryKey) : option string :=
  match k with
  | Iso639_3 => Some "639-3"
  | Iso639_2b => Some "639-2b"
  | Iso639_2t => Some "639-2t"
  | Iso639_1 => Some "639-1"
  | Name => None
  end.

Definition key_path (k : LanguageTableEntryKey) : Gen string :=
  match k with
  | Iso639_3 => Ret "Iso639_3"
  | Iso639_2b => Ret "Iso639_2b"
  | Iso639_2t => Ret "Iso639_2t"
  | Iso639_1 => Ret "Iso639_1"
  | Name => Panic "called `Result::unwrap()` on an `Err` value"
  end.

(** [TryFrom<String>], as for the country keys. *)
Definition try_from (string : String.string) : result LanguageTableEntryKey String.string :=
  let s := make_ascii_lowercase string in
  if String.eqb s "iso639_3" then Ok Iso639_3
  else if String.eqb s "iso639_2b" then Ok Iso639_2b
  else if String.eqb s "iso639_2t" then Ok Iso639_2t
  else if String.eqb s "iso639_1" then Ok Iso639_1
  else if String.eqb s "name" then Ok Name
  else Err "unable to find a matching variant".

(** A [HashMap<LanguageTableEntryKey, String>] as an association list:
    [insert] replaces the binding of the key. *)
Definition Entry := list (LanguageTableEntryKey * string).

Fixpoint get (e : Entry) (k : LanguageTableEntryKey) : option string :=
  match e with
  | [] => None
  | (k', v) :: r => if key_eqb k k' then Some v else get r k
  end.

Definition insert (k : LanguageTableEntryKey) (v : string) (e : Entry) : Entry :=
  (k, v) :: filter (fun kv => negb (key_eqb k (fst kv))) e.

(** [table_entry[k]]: [Index] on a [HashMap] panics on a missing key. *)
Definition index_entry (e : Entry) (k : LanguageTableEntryKey) : Gen string :=
  match get e k with
  | Some v => Ret v
  | None => Panic "no entry found for key"
  end.

(** [str::split('\t')]. *)
Fixpoint split_tab (s : string) : list string :=
  match s with
  | EmptyString => [EmptyString]
  | String c r =>
      if Ascii.eqb c "009"%char then EmptyString :: split_tab r
      else match split_tab r with
           | h :: t => String c h :: t
           | [] => [String c EmptyString]
           end
  end.

Definition index_out_of_bounds : string := "index out of bounds".

(** [line[i]] on a [Vec<&str>]: panics past the end. *)
Definition index_line (line : list string) (i : nat) : Gen string :=
  match nth_error line i with
  | Some s => Ret s
  | None => Panic index_out_of_bounds
  end.

(** The body of the [filter_map] closure for a line read successfully
    (lib.rs 225-245). *)
Definition build_entry (raw : string) : Gen Entry :=
  let line := split_tab raw in
  l0 <- index_line line 0 ;;
  let entry := insert Iso639_3 l0 [] in
  l1 <- index_line line 1 ;;
  let entry := if Nat.eqb (String.length l1) 3 then insert Iso639_2b l1 entry else entry in
  l2 <- index_line line 2 ;;
  let entry := if Nat.eqb (String.length l2) 3 then insert Iso639_2t l2 entry else entry in
  l3 <- index_line line 3 ;;
  let entry := if Nat.eqb (String.length l3) 2 then insert Iso639_1 l3 entry else entry in
  l6 <- index_line line 6 ;;
  Ret (insert Name l6 entry).

(** What [lines()] yields: a line, or an I/O error for that line. *)
Definition RawLine := result string string.

Fixpoint build_entries (lines : list RawLine) : Gen (list Entry) :=
  match lines with
  | [] => Ret []
  | Err _ :: rest => build_entries rest
  | Ok raw :: rest =>
      e <- build_entry raw ;; es <- build_entries rest ;; Ret (e :: es)
  end.

(** [parse_language_table]: [file] is [File::open(table)] followed by the
    lines of the file. *)
Definition parse_language_table (table : string) (file : result (list RawLine) string)
    : Gen (Loaded (list Entry)) :=
  match file with
  | Err e => Ret (Diagnostic ("Unable to load the language table, " ++ table) e)
  | Ok lines =>
      entries <- build_entries (skipn 1 lines) ;; Ret (Parsed entries)
  end.

(** The identifier of a stored value: [ascii_formatter] then [Ident::new]. *)
Definition identifier (v : string) : Gen string := Ident_new (ascii_formatter v).

(** The body of the loop, for an entry holding the left key (lib.rs 546-624). *)
Definition language_row (lhs : LanguageTableEntryKey * bool)
    (rhs : option (LanguageTableEntryKey * bool)) (table_entry : Entry) : Gen row :=
  match lhs, rhs with
  | (lhs_table, true), None =>
      l <- index_entry table_entry lhs_table ;; Ret (RLit (LStr l))
  | (lhs_table, false), None =>
      l <- index_entry table_entry lhs_table ;; x <- identifier l ;; Ret (RIdent x)
  | (lhs_table, true), Some (rhs_table, true) =>
      l <- index_entry table_entry lhs_table ;;
      r <- index_entry table_entry rhs_table ;;
      Ret (RArm (PLit (LStr l)) (ELit (LStr r)))
  | (lhs_table, false), Some (rhs_table, true) =>
      l <- index_entry table_entry lhs_table ;; x <- identifier l ;;
      lhs_path <- key_path lhs_table ;;
      r <- index_entry table_entry rhs_table ;;
      Ret (RArm (PPath lhs_path x) (ELit (LStr r)))
  | (lhs_table, true), Some (rhs_table, false) =>
      l <- index_entry table_entry lhs_table ;;
      match get table_entry rhs_table with
      | Some r =>
          y <- identifier r ;; rhs_path <- key_path rhs_table ;;
          Ret (RArm (PLit (LStr l)) (ESome (EPath rhs_path y)))
      | None => Ret (RArm (PLit (LStr l)) ENone)
      end
  | (lhs_table, false), Some (rhs_table, false) =>
      l <- index_entry table_entry lhs_table ;; x <- identifier l ;;
      lhs_path <- key_path lhs_table ;;
      match get table_entry rhs_table with
      | Some r =>
          y <- identifier r ;; rhs_path <- key_path rhs_table ;;
          Ret (RArm (PPath lhs_path x) (ESome (EPath rhs_path y)))
      | None => Ret (RArm (PPath lhs_path x) ENone)
      end
  end.

(** The loop: entries without the left key are skipped ([continue]). *)
Fixpoint language_rows (lhs : LanguageTableEntryKey * bool)
    (rhs : option (LanguageTableEntryKey * bool)) (table : list Entry) : Gen (list row) :=
  match table with
  | [] => Ret []
  | table_entry :: rest =>
      match get table_entry (fst lhs) with
      | None => language_rows lhs rhs rest
      | Some _ =>
          r <- language_row lhs rhs table_entry ;;
          rs <- language_rows lhs rhs rest ;; Ret (r :: rs)
      end
  end.

Definition language_identifiers_from_table (table : list Entry)
    (input : GenerationInput LanguageTableEntryKey) : Gen output :=
  rows <- language_rows (lhs input) (rhs input) table ;;
  Ret (assemble as_standard_code input rows
         "the selected table column to generate an enumeration from does not have a corresponding iso standard").

(** ** The invocations of src/lib/src/language.rs *)

Definition request (e m : option string) (l : LanguageTableEntryKey * bool)
    (r : option (LanguageTableEntryKey * bool))
    : GenerationInput LanguageTableEntryKey :=
  {| enumeration := e; match_against := m; lhs := l; rhs := r |}.

Definition run (t : list Entry) (input : GenerationInput LanguageTableEntryKey)
    (v : value) : option value :=
  match language_identifiers_from_table t input with
  | Ret o => run_match o v
  | Panic _ => None
  end.

Definition variants (t : list Entry) (k : LanguageTableEntryKey)
    : option (list string) :=
  match language_identifiers_from_table t
          (request (match key_path k with Ret p => Some p | Panic _ => None end)
             None (k, false) None) with
  | Ret o => enum_variants o
  | Panic _ => None
  end.

Inductive Error : Type :=
| InvalidLanguageCode (c : string)
| NoCorrespondingLanguageCode (c : string).

Definition enum_value (k : LanguageTableEntryKey) (v : string) : value :=
  VEnum (match key_path k with Ret p => p | Panic _ => EmptyString end) v.

(** [Language::code]: [match &self: $language => $language_as_string]. *)
Definition code (t : list Entry) (k : LanguageTableEntryKey) (v : string)
    : option value :=
  run t (request None (Some "&self") (k, false) (Some (k, true))) (enum_value k v).

(** [FromStr]: [match s: $language_as_string => $language] then [.ok_or(..)]. *)
(** [Language::name]: [match &self: $language => "name"]. *)
Definition name_method (t : list Entry) (k : LanguageTableEntryKey) (v : string)
    : option value :=
  run t (request None (Some "&self") (k, false) (Some (Name, true))) (enum_value k v).

Definition from_str (t : list Entry) (k : LanguageTableEntryKey) (s : string)
    : option (result value Error) :=
  match run t (request None (Some "s") (k, true) (Some (k, false))) (VStr s) with
  | Some r => ok_or r (InvalidLanguageCode s)
  | None => None
  end.

(** [TryFrom<$from> for $to]: [match c: $from => $to] then
    [.ok_or(Error::NoCorrespondingLanguageCode(c.code()))]. *)
Definition try_convert (t : list Entry) (from to : LanguageTableEntryKey) (v : string)
    : option (result value Error) :=
  match code t from v with
  | Some (VStr c) =>
      match run t (request None (Some "c") (from, false) (Some (to, false))) (enum_value from v) with
      | Some r => ok_or r (NoCorrespondingLanguageCode c)
      | None => None
      end
  | _ => None
  end.

(** The values stored under a key, in table order. *)
Definition present_values (t : list Entry) (k : LanguageTableEntryKey) : list string :=
  flat_map (fun e => match get e k with Some v => [v] | None => [] end) t.

(** The value a line of the table file gives a key under the column rule
    of the loader: column 0 for Iso639_3 and column 6 for Name, columns 1
    and 2 for Iso639_2b and Iso639_2t when 3 bytes long, column 3 for
    Iso639_1 when 2 bytes long; and the values of a key over the lines,
    unreadable lines giving none. *)
Definition column_of (k : LanguageTableEntryKey) (raw : string) : list string :=
  let line := split_tab raw in
  let sized i n :=
    match nth_error line i with
    | Some v => if Nat.eqb (String.length v) n then [v] else []
    | None => []
    end in
  match k with
  | Iso639_3 => match nth_error line 0 with Some v => [v] | None => [] end
  | Iso639_2b => sized 1 3
  | Iso639_2t => sized 2 3
  | Iso639_1 => sized 3 2
  | Name => match nth_error line 6 with Some v => [v] | None => [] end
  end.

Definition column_values (k : LanguageTableEntryKey) (lines : list RawLine) : list string :=
  flat_map (fun l => match l with Ok raw => column_of k raw | Err _ => [] end) lines.

Definition sample_lines : list RawLine :=
  [Ok "Id	Part2B	Part2T	Part1	Scope	Language_Type	Ref_Name	Comment";
   Ok "aaa				I	L	Ghotuo	";
   Ok "eng	eng	eng	en	I	L	English	";
   Ok "fra	fre	fra	fr	I	L	French	"].

Definition sample : list Entry :=
  match parse_language_table "assets/language.tab" (Ok sample_lines) with
  | Ret (Parsed t) => t
  | _ => []
  end.

End Language.

(** * The country dataset loader ([parse_country_codes])

    [serde_json::from_reader] into [Vec<CountryEntry>], where
    [CountryEntry] derives [Deserialize] with
    [#[serde(rename_all = "kebab-case")]].  The JSON text is taken as
    already read by serde_json's syntax layer: a syntax error is the [Err]
    of [contents]. *)
Module CountryJson.
#[local] Set Warnings "-register-all".

Import Country.

Inductive json : Type :=
| JNull
| JBool (b : bool)
| JNumber (n : N)
| JString (s : string)
| JArray (l : list json)
| JObject (fields : list (string * json)).

Definition res_bind {A B E} (m : result A E) (k : A -> result B E) : result B E :=
  match m with
  | Ok a => k a
  | Err e => Err e
  end.

Notation "x <-? m ;; k" := (res_bind m (fun x => k))
  (at level 61, m at next level, right associativity).

Fixpoint res_mapM {A B E} (f : A -> result B E) (l : list A) : result (list B) E :=
  match l with
  | [] => Ok []
  | x :: r => y <-? f x ;; ys <-? res_mapM f r ;; Ok (y :: ys)
  end.

(** The serialized field names: the Rust names in kebab-case. *)
Definition rename_kebab (field : string) : string :=
  let fix go s :=
    match s with
    | EmptyString => EmptyString
    | String c r => String (if Ascii.eqb c "_"%char then "-"%char else c) (go r)
    end in go field.

Definition field_names : list string :=
  map rename_kebab ["name"; "alpha_2"; "alpha_3"; "country_code"].

Definition as_string (j : json) : result string string :=
  match j with
  | JString s => Ok s
  | _ => Err "invalid type, expected a string"
  end.

(** The four fields collected so far, in declaration order. *)
Definition Slots := list (option string).

Fixpoint field_index (names : list string) (k : string) : option nat :=
  match names with
  | [] => None
  | n :: r =>
      if String.eqb n k then Some 0
      else option_map S (field_index r k)
  end.

(** [visit_map]: known keys fill their slot (once), unknown keys are
    ignored. *)
Fixpoint visit_map (fields : list (string * json)) (slots : Slots)
    : result Slots string :=
  match fields with
  | [] => Ok slots
  | (k, v) :: rest =>
      match field_index field_names k with
      | None => visit_map rest slots
      | Some i =>
          match nth_error slots i with
          | Some (Some _) => Err ("duplicate field `" ++ k ++ "`")
          | _ =>
              s <-? as_string v ;;
              visit_map rest (app (firstn i slots) (Some s :: skipn (S i) slots))
          end
      end
  end.

Fixpoint required (names : list string) (slots : Slots) : result (list string) string :=
  match names, slots with
  | n :: ns, Some s :: ss => r <-? required ns ss ;; Ok (s :: r)
  | n :: _, _ => Err ("missing field `" ++ n ++ "`")
  | [], _ => Ok []
  end.

Definition entry_of (vals : list string) : result CountryEntry string :=
  match vals with
  | [n; a2; a3; cc] =>
      Ok {| name := n; alpha_2 := a2; alpha_3 := a3; country_code := cc |}
  | _ => Err "invalid length, expected struct CountryEntry with 4 elements"
  end.

(** A struct is read from an object ([visit_map]) or from an array of its
    fields in order ([visit_seq]). *)
Definition deserialize_entry (j : json) : result CountryEntry string :=
  match j with
  | JObject fields =>
      slots <-? visit_map fields [None; None; None; None] ;;
      vals <-? required field_names slots ;; entry_of vals
  | JArray items =>
      vals <-? res_mapM as_string items ;; entry_of vals
  | _ => Err "invalid type, expected struct CountryEntry"
  end.

Definition deserialize_entries (j : json) : result (list CountryEntry) string :=
  match j with
  | JArray items => res_mapM deserialize_entry items
  | _ => Err "invalid type, expected a sequence"
  end.

(** [parse_country_codes]: [file] is [File::open(dataset)], then the JSON
    document read from it. *)
Definition parse_country_codes (dataset : string)
    (file : result (result json string) string) : Loaded (list CountryEntry) :=
  match file with
  | Err e => Diagnostic ("Unable to load the country code dataset, " ++ dataset) e
  | Ok (Err e) => Diagnostic ("Unable to parse the country code dataset, " ++ dataset) e
  | Ok (Ok doc) =>
      match deserialize_entries doc with
      | Ok entries => Parsed entries
      | Err e => Diagnostic ("Unable to parse the country code dataset, " ++ dataset) e
      end
  end.

(** A country object written with the serialized (kebab-case) keys. *)
Definition entry_object (e : CountryEntry) : json :=
  JObject [("name", JString (name e)); ("alpha-2", JString (alpha_2 e));
           ("alpha-3", JString (alpha_3 e)); ("country-code", JString (country_code e))].

(** The values an object gives a key, in field order. *)
Definition key_values (fields : list (string * json)) (k : string) : list json :=
  map snd (filter (fun kv => String.eqb (fst kv) k) fields).

(** An object holding each serialized key once, with the string value of
    the record's field. *)
Definition object_of_entry (fields : list (string * json)) (e : CountryEntry) : Prop :=
  key_values fields "name" = [JString (name e)]
  /\ key_values fields "alpha-2" = [JString (alpha_2 e)]
  /\ key_values fields "alpha-3" = [JString (alpha_3 e)]
  /\ key_values fields "country-code" = [JString (country_code e)].

End CountryJson.

(** * Parsing a macro invocation ([impl Parse for GenerationInput<K>])

    The invocation's tokens as syn sees them: identifiers (keywords
    included: [enum], [match] and [self] are identifiers of the token
    stream), string literals with their value, the punctuation the grammar
    uses ([:], [&] and [=>]), and any other token. *)
Module Syntax.

Inductive token : Type :=
| TIdent (s : string)
| TStr (value : string)
| TColon
| TAmp
| TFatArrow
| TOther.

(** The words syn's [Ident] refuses (its [accept_as_ident]). *)
Definition keywords : list string :=
  ["_"; "abstract"; "as"; "async"; "await"; "become"; "box"; "break";
   "const"; "continue"; "crate"; "do"; "dyn"; "else"; "enum"; "extern";
   "false"; "final"; "fn"; "for"; "if"; "impl"; "in"; "let"; "loop";
   "macro"; "match"; "mod"; "move"; "mut"; "override"; "priv"; "pub";
   "ref"; "return"; "Self"; "self"; "static"; "struct"; "super"; "trait";
   "true"; "try"; "type"; "typeof"; "unsafe"; "unsized"; "use"; "virtual";
   "where"; "while"; "yield"].

Definition is_keyword (s : string) : bool := existsb (String.eqb s) keywords.

(** [Lookahead1::peek] for a keyword token such as [Token![enum]]. *)
Definition peek_keyword (kw : string) (t : option token) : bool :=
  match t with
  | Some (TIdent s) => String.eqb s kw
  | _ => false
  end.

(** [.try_into().unwrap()] on the key name. *)
Definition unwrap {K} (r : result K string) : Gen K :=
  match r with
  | Ok k => Ret k
  | Err _ => Panic "called `Result::unwrap()` on an `Err` value"
  end.

(** The optional [enum Name :] prefix.  [None] is a syn error. *)
Definition parse_enumeration (keyword : option token) (ts : list token)
    : option (option string * list token) :=
  if peek_keyword "enum" keyword then
    match ts with
    | _ :: TIdent x :: TColon :: r => if is_keyword x then None else Some (Some x, r)
    | _ => None
    end
  else Some (None, ts).

(** The optional [match &self :] / [match x :] / [match :] prefix.  As in
    the source, the [match] keyword is looked for with the lookahead taken
    before the [enum] prefix. *)
Definition parse_match_against (keyword : option token) (ts : list token)
    : option (option string * list token) :=
  if peek_keyword "match" keyword then
    match ts with
    | _ :: TAmp :: r =>
        match r with
        | TIdent "self" :: TColon :: r' => Some (Some "&self", r')
        | _ => None
        end
    | _ :: TIdent x :: r =>
        if is_keyword x then None
        else match r with
             | TColon :: r' => Some (Some x, r')
             | _ => None
             end
    | _ :: r =>
        match r with
        | TColon :: r' => Some (None, r')
        | _ => None
        end
    | [] => None
    end
  else Some (None, ts).

(** One side: an identifier ([false]) or a string literal ([true]) naming a
    key; the name is converted at once, panicking on an unknown name. *)
Definition parse_side {K} (try_from : string -> result K string) (ts : list token)
    : Gen (option ((K * bool) * list token)) :=
  match ts with
  | TIdent x :: r =>
      if is_keyword x then Ret None
      else k <- unwrap (try_from x) ;; Ret (Some ((k, false), r))
  | TStr v :: r => k <- unwrap (try_from v) ;; Ret (Some ((k, true), r))
  | _ => Ret None
  end.

(** [parse_macro_input!]: the whole stream must be consumed. *)
Definition finish {K} (e m : option string) (l : K * bool) (r : option (K * bool))
    (ts : list token) : Gen (option (GenerationInput K)) :=
  match ts with
  | [] => Ret (Some {| enumeration := e; match_against := m; lhs := l; rhs := r |})
  | _ => Ret None
  end.

(** The parser: [Ret None] is a syn error (reported as a compile error),
    [Panic] an unknown key name. *)
Definition parse_generation_input {K} (try_from : string -> result K string)
    (ts : list token) : Gen (option (GenerationInput K)) :=
  let keyword := hd_error ts in
  match parse_enumeration keyword ts with
  | None => Ret None
  | Some (e, ts1) =>
      match parse_match_against keyword ts1 with
      | None => Ret None
      | Some (m, ts2) =>
          l <- parse_side try_from ts2 ;;
          match l with
          | None => Ret None
          | Some (lhs, ts3) =>
              match ts3 with
              | TFatArrow :: ts4 =>
                  r <- parse_side try_from ts4 ;;
                  match r with
                  | None => Ret None
                  | Some (rhs, ts5) => finish e m lhs (Some rhs) ts5
                  end
              | _ => finish e m lhs None ts3
              end
          end
      end
  end.

(** The token written for a side. *)
Definition side_token (name : string) (literal : bool) : token :=
  if literal then TStr name else TIdent name.

End Syntax.

(** * The two proc-macro entry points

    [parse_*_from_environment().unwrap()], then [parse_macro_input!], then
    the generator.  [manifest_dir] is [var("CARGO_MANIFEST_DIR")]; [fs]
    gives what opening and reading a path yields. *)
Module Macro.
Import Syntax.

(** [PathBuf::push] of a relative path (Unix separators). *)
Definition path_push (dir rel : string) : string :=
  match dir with
  | EmptyString => rel
  | _ =>
      if String.eqb (substring (String.length dir - 1) 1 dir) "/" then dir ++ rel
      else dir ++ "/" ++ rel
  end.

Definition unwrap_var (v : option string) : Gen string :=
  match v with
  | Some s => Ret s
  | None => Panic "called `Result::unwrap()` on an `Err` value"
  end.

Definition unwrap_none : string := "called `Option::unwrap()` on a `None` value".

Inductive MacroOut : Type :=
| Generated (o : output)
| SyntaxError.

Definition country_identifiers (manifest_dir : option string)
    (fs : string -> result (result CountryJson.json string) string)
    (tokens : list token) : Gen MacroOut :=
  dir <- unwrap_var manifest_dir ;;
  let path := path_push dir "assets/country.json" in
  match CountryJson.parse_country_codes path (fs path) with
  | Diagnostic _ _ => Panic unwrap_none
  | Parsed country_codes =>
      input <- parse_generation_input Country.try_from tokens ;;
      match input with
      | None => Ret SyntaxError
      | Some input =>
          o <- Country.country_identifiers_from_table country_codes input ;; Ret (Generated o)
      end
  end.

Definition language_identifiers (manifest_dir : option string)
    (fs : string -> result (list Language.RawLine) string)
    (tokens : list token) : Gen MacroOut :=
  dir <- unwrap_var manifest_dir ;;
  let path := path_push dir "assets/language.tab" in
  loaded <- Language.parse_language_table path (fs path) ;;
  match loaded with
  | Diagnostic _ _ => Panic unwrap_none
  | Parsed table =>
      input <- parse_generation_input Language.try_from tokens ;;
      match input with
      | None => Ret SyntaxError
      | Some input =>
          o <- Language.language_identifiers_from_table table input ;; Ret (Generated o)
      end
  end.

End Macro.

(** * Sample runs of the model *)
Module SampleChecks.

Example ascii_formatter_ENG : ascii_formatter "ENG" = "Eng".
Proof. reflexivity. Qed.
Example ascii_formatter_eacute : ascii_formatter "éNG" = "éNG".
Proof. reflexivity. Qed.

Example country_alpha2_sample : Country.variants Country.sample Country.Alpha2 = Some ["Fr"; "Us"].
Proof. reflexivity. Qed.
Example country_us_usa :
  Country.convert Country.sample Country.Alpha2 Country.Alpha3 "Us"
  = Some (VEnum "Iso3166_1_alpha_3" "Usa").
Proof. reflexivity. Qed.
Example country_numeric : Country.numeric Country.sample Country.Alpha2 "Us" = Some (VU16 840).
Proof. reflexivity. Qed.
Example country_try_from :
  Country.try_from_u16 Country.sample Country.Alpha2 840
  = Some (Ok (VEnum "Iso3166_1_alpha_2" "Us")).
Proof. reflexivity. Qed.
Example country_from_str_zz :
  Country.from_str Country.sample Country.Alpha2 "ZZ"
  = Some (Err (Country.InvalidCountryCode "ZZ")).
Proof. reflexivity. Qed.

Example language_iso639_1 :
  Language.variants Language.sample Language.Iso639_1 = Some ["En"; "Fr"].
Proof. reflexivity. Qed.
Example language_iso639_2b :
  Language.variants Language.sample Language.Iso639_2b = Some ["Eng"; "Fre"].
Proof. reflexivity. Qed.
Example language_code :
  Language.code Language.sample Language.Iso639_2b "Fre" = Some (VStr "fre").
Proof. reflexivity. Qed.
Example language_from_str_xx :
  Language.from_str Language.sample Language.Iso639_1 "xx"
  = Some (Err (Language.InvalidLanguageCode "xx")).
Proof. reflexivity. Qed.

Example field_names_kebab :
  CountryJson.field_names = ["name"; "alpha-2"; "alpha-3"; "country-code"].
Proof. reflexivity. Qed.

End SampleChecks.

(** * Properties of [ascii_formatter] *)
Section Formatter.

Lemma continuation_byte (x : N) :
  is_continuation (ascii_of_N (128 + x mod 64)) = true.
Proof.
  unfold is_continuation.
  assert (H : (x mod 64 < 64)%N) by (apply N.mod_lt; lia).
  set (m := (x mod 64)%N) in *; clearbody m.
  rewrite N_ascii_embedding by lia.
  apply andb_true_intro; split; [apply N.leb_le | apply N.ltb_lt]; lia.
Qed.

Lemma encode_char_multibyte (u : N) :
  (128 <= u)%N ->
  exists b x rest, encode_char u = String b (String (ascii_of_N (128 + x mod 64)) rest).
Proof.
  intros H. unfold encode_char.
  destruct (u <? 128)%N eqn:E1; [apply N.ltb_lt in E1; lia |].
  destruct (u <? 2048)%N; [exists (ascii_of_N (192 + u / 64)), u; eexists; reflexivity |].
  destruct (u <? 65536)%N.
  - exists (ascii_of_N (224 + u / 4096)), (u / 64)%N; eexists; reflexivity.
  - exists (ascii_of_N (240 + u / 262144)), (u / 4096)%N; eexists; reflexivity.
Qed.

Lemma not_continuation_of (n : N) :
  (n < 128 \/ 192 <= n < 256)%N -> is_continuation (ascii_of_N n) = false.
Proof.
  intros H. unfold is_continuation. rewrite N_ascii_embedding by lia.
  destruct H as [H | H].
  - replace (128 <=? n)%N with false by (symmetry; apply N.leb_gt; lia). reflexivity.
  - replace (n <? 192)%N with false by (symmetry; apply N.ltb_ge; lia).
    apply andb_false_r.
Qed.

Lemma encode_char_head (u : N) :
  is_scalar u = true ->
  exists b r, encode_char u = String b r /\ is_continuation b = false.
Proof.
  intros Hs. unfold is_scalar in Hs. apply andb_prop in Hs as [Hs _].
  apply N.ltb_lt in Hs. unfold encode_char.
  destruct (u <? 128)%N eqn:E1; [apply N.ltb_lt in E1 | apply N.ltb_ge in E1].
  { eexists _, _; split; [reflexivity | apply not_continuation_of; lia]. }
  destruct (u <? 2048)%N eqn:E2; [apply N.ltb_lt in E2 | apply N.ltb_ge in E2].
  { eexists _, _; split; [reflexivity | apply not_continuation_of].
    assert (u / 64 < 32)%N by (apply N.Div0.div_lt_upper_bound; lia).
    set (d := (u / 64)%N) in *; clearbody d. lia. }
  destruct (u <? 65536)%N eqn:E3; [apply N.ltb_lt in E3 | apply N.ltb_ge in E3].
  { eexists _, _; split; [reflexivity | apply not_continuation_of].
    assert (u / 4096 < 16)%N by (apply N.Div0.div_lt_upper_bound; lia).
    set (d := (u / 4096)%N) in *; clearbody d. lia. }
  eexists _, _; split; [reflexivity | apply not_continuation_of].
  assert (u / 262144 < 5)%N by (apply N.Div0.div_lt_upper_bound; lia).
  set (d := (u / 262144)%N) in *; clearbody d. lia.
Qed.

Lemma encode_head (cs : list N) :
  Forall (fun u => is_scalar u = true) cs ->
  encode cs = EmptyString \/
  exists b r, encode cs = String b r /\ is_continuation b = false.
Proof.
  intros H. destruct H as [| u cs Hu _]; [left; reflexivity | right].
  destruct (encode_char_head u Hu) as (b & r & E & Hb).
  exists b, (r ++ encode cs). simpl. rewrite E. split; [reflexivity | exact Hb].
Qed.

Lemma ascii_bytes_fixed (b : ascii) :
  (128 <= N_of_ascii b)%N -> to_ascii_uppercase b = b /\ to_ascii_lowercase b = b.
Proof.
  intros H. unfold to_ascii_uppercase, to_ascii_lowercase.
  replace (N_of_ascii b <=? 122)%N with false by (symmetry; apply N.leb_gt; lia).
  replace (N_of_ascii b <=? 90)%N with false by (symmetry; apply N.leb_gt; lia).
  rewrite !andb_false_r. split; reflexivity.
Qed.

(** A string whose first character is multi-byte is left as it is. *)
Lemma ascii_formatter_multibyte_fixed (u : N) (cs : list N) :
  (128 <= u)%N -> ascii_formatter (encode (u :: cs)) = encode (u :: cs).
Proof.
  intros Hu.
  destruct (encode_char_multibyte u Hu) as (b & x & rest & E).
  unfold encode; fold encode. rewrite E.
  pose proof (continuation_byte x) as Hc.
  set (c := ascii_of_N (128 + x mod 64)) in *. clearbody c.
  unfold ascii_formatter, is_char_boundary. simpl. rewrite Hc. simpl. rewrite Hc. reflexivity.
Qed.

Lemma string_app_cancel (s a b : string) : s ++ a = s ++ b -> a = b.
Proof. induction s as [| c s IH]; simpl; [auto | intros H; injection H; exact IH]. Qed.

Lemma upper_first_byte (c : N) (x y : string) :
  (65 <= c <= 90)%N -> encode_char c ++ x <> encode_char (scalar_lower c) ++ y.
Proof.
  intros Hc. unfold scalar_lower.
  replace ((65 <=? c) && (c <=? 90))%N with true
    by (symmetry; apply andb_true_intro; split; apply N.leb_le; lia).
  unfold encode_char.
  replace (c <? 128)%N with true by (symmetry; apply N.ltb_lt; lia).
  replace (c + 32 <? 128)%N with true by (symmetry; apply N.ltb_lt; lia).
  unfold byte. simpl. intros H. injection H as H _.
  apply (f_equal N_of_ascii) in H. rewrite !N_ascii_embedding in H by lia. lia.
Qed.

(** ASCII-lowercasing the characters changes the encoding of a text that
    holds an uppercase ASCII letter. *)
Lemma encode_lower_differs (cs : list N) :
  Exists (fun c => (65 <= c <= 90)%N) cs -> encode cs <> encode (map scalar_lower cs).
Proof.
  induction 1 as [c cs Hc | c cs _ IH]; simpl.
  - exact (upper_first_byte c _ _ Hc).
  - destruct ((65 <=? c) && (c <=? 90))%N eqn:U.
    + apply andb_prop in U as [U1 U2]. apply N.leb_le in U1, U2.
      apply upper_first_byte. lia.
    + replace (scalar_lower c) with c by (unfold scalar_lower; rewrite U; reflexivity).
      intros H. apply IH. exact (string_app_cancel _ _ _ H).
Qed.

End Formatter.

(** C8: the normalization is meant to uppercase the first character and
    lowercase every remaining ASCII letter, but when the first character is
    multi-byte, byte 1 is no character boundary and [get_mut(1..)] yields
    nothing, so the remainder is left as it is: for every such string whose
    remainder holds an uppercase ASCII letter the output differs from the
    title case (on "éNG" the output is "éNG", not "éng"). *)
Theorem ascii_formatter_multibyte_first_skips (u : N) (cs : list N)
    (Hu : (128 <= u)%N) (Hs : is_scalar u = true)
    (Hup : Exists (fun c => (65 <= c <= 90)%N) cs) :
  ascii_formatter (encode (u :: cs)) = encode (u :: cs)
  /\ ascii_formatter (encode (u :: cs)) <> encode (title_case_spec (u :: cs)).
Proof.
  rewrite (ascii_formatter_multibyte_fixed u cs Hu). split; [reflexivity |].
  unfold title_case_spec.
  replace (scalar_upper u) with u
    by (unfold scalar_upper; replace (u <=? 122)%N with false
          by (symmetry; apply N.leb_gt; lia); rewrite andb_false_r; reflexivity).
  simpl. intros H. exact (encode_lower_differs cs Hup (string_app_cancel _ _ _ H)).
Qed.

(** C9: [ascii_formatter] is a total function on strings; on the empty
    string, and on every string whose first character is multi-byte, it
    returns its input unchanged, whatever follows. *)
Theorem ascii_formatter_non_ascii_first (u : N) (cs : list N)
    (Hu : (128 <= u)%N) (Hs : is_scalar u = true) :
  ascii_formatter (encode (u :: cs)) = encode (u :: cs)
  /\ ascii_formatter EmptyString = EmptyString.
Proof.
  split; [exact (ascii_formatter_multibyte_fixed u cs Hu) | reflexivity].
Qed.

(** * The language table loader *)
Section LanguageLoader.
Import Language.

Lemma build_entry_outcome (raw : string) :
  (exists e, build_entry raw = Ret e) \/ build_entry raw = Panic index_out_of_bounds.
Proof.
  unfold build_entry.
  destruct (split_tab raw) as [| a0 [| a1 [| a2 [| a3 [| a4 [| a5 [| a6 r]]]]]]];
    simpl; eauto.
Qed.

Lemma build_entry_short (raw : string) :
  List.length (split_tab raw) < 7 -> build_entry raw = Panic index_out_of_bounds.
Proof.
  unfold build_entry.
  destruct (split_tab raw) as [| a0 [| a1 [| a2 [| a3 [| a4 [| a5 [| a6 r]]]]]]];
    simpl; intros H; try reflexivity; lia.
Qed.

Lemma build_entries_short (before after : list RawLine) (raw : string) :
  List.length (split_tab raw) < 7 ->
  build_entries (before ++ Ok raw :: after) = Panic index_out_of_bounds.
Proof.
  intros H. induction before as [| l before IH]; simpl.
  - rewrite build_entry_short by exact H. reflexivity.
  - destruct l as [r | e]; [| exact IH].
    destruct (build_entry_outcome r) as [[e Hr] | Hr]; rewrite Hr; simpl;
      [rewrite IH |]; reflexivity.
Qed.

End LanguageLoader.

(** C4: a language table with, after its header, a line of fewer than 7
    tab-separated fields makes the loader panic on an out-of-bounds index;
    no diagnostic naming the table is emitted. *)
Theorem parse_language_table_short_line (table : string) (header : Language.RawLine)
    (before after : list Language.RawLine) (raw : string)
    (Hshort : List.length (Language.split_tab raw) < 7) :
  Language.parse_language_table table (Ok (header :: before ++ Ok raw :: after))
    = Panic Language.index_out_of_bounds.
Proof.
  unfold Language.parse_language_table. simpl skipn.
  rewrite build_entries_short by exact Hshort. reflexivity.
Qed.

(** C7 (amended): the header line is skipped; for a line of at least 7
    tab-separated fields the record holds column 0 as Iso639_3 and column 6
    as Name, column 1 as Iso639_2b and column 2 as Iso639_2t exactly when
    they are 3 bytes long, column 3 as Iso639_1 exactly when it is 2 bytes
    long, and nothing from the other columns. *)
Theorem build_entry_columns (raw c0 c1 c2 c3 c4 c5 c6 : string) (rest : list string)
    (Hsplit : Language.split_tab raw = c0 :: c1 :: c2 :: c3 :: c4 :: c5 :: c6 :: rest) :
  (forall table header lines,
     Language.parse_language_table table (Ok (header :: lines))
     = (es <- Language.build_entries lines ;; Ret (Parsed es)))
  /\ exists e, Language.build_entry raw = Ret e
     /\ Language.get e Language.Iso639_3 = Some c0
     /\ Language.get e Language.Iso639_2b
          = (if Nat.eqb (String.length c1) 3 then Some c1 else None)
     /\ Language.get e Language.Iso639_2t
          = (if Nat.eqb (String.length c2) 3 then Some c2 else None)
     /\ Language.get e Language.Iso639_1
          = (if Nat.eqb (String.length c3) 2 then Some c3 else None)
     /\ Language.get e Language.Name = Some c6
     /\ List.length e
          = 2 + (if Nat.eqb (String.length c1) 3 then 1 else 0)
            + (if Nat.eqb (String.length c2) 3 then 1 else 0)
            + (if Nat.eqb (String.length c3) 2 then 1 else 0).
Proof.
  split; [reflexivity |].
  unfold Language.build_entry. rewrite Hsplit. simpl.
  eexists; split; [reflexivity |].
  destruct (Nat.eqb (String.length c1) 3), (Nat.eqb (String.length c2) 3),
    (Nat.eqb (String.length c3) 2); simpl; repeat split; reflexivity.
Qed.

(** C7 (counterexample): the column "éa" has 2 characters but 3 bytes; the
    loader stores it as the Iso639_2b code. *)
Lemma build_entry_multibyte_2b :
  exists e,
    Language.build_entry "abc	éa					Name" = Ret e
    /\ Language.get e Language.Iso639_2b = Some "éa"
    /\ char_count "éa" = 2.
Proof. eexists; split; [reflexivity | split; reflexivity]. Qed.

(** * The country generator *)
Section CountryGenerator.
Import Country.

(** Destructs the generation steps of a goal one after the other. *)
Ltac gen_steps :=
  repeat match goal with
         | |- context [gen_bind ?m _] => destruct m; simpl
         | |- context [match ?m with Panic _ => _ | Ret _ => _ end] =>
             destruct m; simpl
         end.

Lemma country_first_row_panics (c : CountryEntry) (ds : list CountryEntry)
    (input : GenerationInput CountryIdentifierKey) (msg : string) :
  country_row (lhs input) (rhs input) c = Panic msg ->
  country_identifiers_from_table (c :: ds) input = Panic msg.
Proof.
  intros H. unfold country_identifiers_from_table. simpl. rewrite H. reflexivity.
Qed.

Lemma country_row_unusable (c : CountryEntry) (l : CountryIdentifierKey * bool)
    (r : option (CountryIdentifierKey * bool)) :
  (unusable_key (fst l) /\ (snd l = false \/ r = None))
  \/ (exists k, r = Some (k, false) /\ unusable_key k) ->
  exists msg, country_row l r c = Panic msg.
Proof.
  destruct l as [lk lb].
  intros [[Hk Hb] | (k & -> & Hk)]; simpl in *.
  - destruct Hk as [-> | ->]; destruct lb, r as [[rk [|]] |]; simpl;
      destruct Hb as [Hb | Hb]; try discriminate;
      unfold identifier; simpl; gen_steps; eauto.
  - destruct Hk as [-> | ->]; destruct lb; simpl;
      unfold identifier, literal; simpl; gen_steps; eauto.
Qed.

Lemma gen_mapM_ret {A B} (f : A -> Gen B) (l : list A) (rs : list B) :
  gen_mapM f l = Ret rs -> Forall2 (fun x y => f x = Ret y) l rs.
Proof.
  revert rs. induction l as [| x l IH]; simpl; intros rs H.
  - injection H as <-. constructor.
  - destruct (f x) as [m | y] eqn:Hx; simpl in H; [discriminate |].
    destruct (gen_mapM f l) as [m | ys]; simpl in H; [discriminate |].
    injection H as <-. constructor; [exact Hx | apply IH; reflexivity].
Qed.

Lemma gen_mapM_panic {A B} (f : A -> Gen B) (l : list A) (x : A) :
  In x l -> (exists m, f x = Panic m) -> exists m, gen_mapM f l = Panic m.
Proof.
  induction l as [| a l IH]; simpl; intros Hx Hf; [contradiction |].
  destruct (f a) as [m | y] eqn:Fa; simpl; [exists m; reflexivity |].
  destruct Hx as [-> | Hx]; [destruct Hf as [m Hm]; congruence |].
  destruct (IH Hx Hf) as [m Hm]. rewrite Hm. exists m. reflexivity.
Qed.

Lemma gen_mapM_map {A B} (f : A -> Gen B) (g : A -> B) (l : list A) :
  (forall x, In x l -> f x = Ret (g x)) -> gen_mapM f l = Ret (map g l).
Proof.
  induction l as [| x l IH]; simpl; intros H; [reflexivity |].
  rewrite (H x (or_introl eq_refl)). simpl.
  rewrite IH by (intros y Hy; apply H; right; exact Hy). reflexivity.
Qed.

End CountryGenerator.

(** C10: over a non-empty country dataset, a request using Numeric or Name
    on an identifier side, or alone, makes the generator panic. *)
Theorem country_numeric_name_panic (ds : list Country.CountryEntry)
    (input : GenerationInput Country.CountryIdentifierKey)
    (Hne : ds <> [])
    (Hbad : (Country.unusable_key (fst (lhs input))
             /\ (snd (lhs input) = false \/ rhs input = None))
            \/ (exists k, rhs input = Some (k, false) /\ Country.unusable_key k)) :
  exists msg, Country.country_identifiers_from_table ds input = Panic msg.
Proof.
  destruct ds as [| c ds]; [contradiction |].
  destruct (country_row_unusable c (lhs input) (rhs input) Hbad) as [msg Hm].
  exists msg. apply country_first_row_panics. exact Hm.
Qed.

(** C1 (amended): in both generators, an emitted match construct carries
    the trailing [_ => None] arm exactly when the left side of the request
    is a literal, whatever the right side. *)
Theorem match_fallback_iff_literal_lhs :
  (forall ds m l r o,
     Country.country_identifiers_from_table ds (Country.request None (Some m) l r) = Ret o ->
     exists rows, o = OMatch m rows (snd l))
  /\ (forall t m l r o,
     Language.language_identifiers_from_table t (Language.request None (Some m) l r) = Ret o ->
     exists rows, o = OMatch m rows (snd l)).
Proof.
  split; intros d m l r o H.
  - unfold Country.country_identifiers_from_table in H.
    destruct (gen_mapM _ d) as [msg | rows]; simpl in H; [discriminate |].
    injection H as <-. exists rows. reflexivity.
  - unfold Language.language_identifiers_from_table in H.
    destruct (Language.language_rows _ _ d) as [msg | rows]; simpl in H; [discriminate |].
    injection H as <-. exists rows. reflexivity.
Qed.

(** C1 (counterexample): the country lookup [TryFrom<u16>] has an
    identifier right side over a key present in every record, yet its
    match gets the fallback arm; the language conversion Iso639_3 to
    Iso639_1 has an identifier right side over a key that can be absent,
    yet its match has no fallback arm. *)
Lemma fallback_follows_lhs_not_rhs :
  (exists rows,
     Country.country_identifiers_from_table Country.sample
       (Country.request None (Some "c") (Country.Numeric, true) (Some (Country.Alpha2, false)))
     = Ret (OMatch "c" rows true))
  /\ (exists rows,
     Language.language_identifiers_from_table Language.sample
       (Language.request None (Some "c") (Language.Iso639_3, false) (Some (Language.Iso639_1, false)))
     = Ret (OMatch "c" rows false)
     /\ In (RArm (PPath "Iso639_3" "Aaa") ENone) rows).
Proof.
  split; eexists; [reflexivity |]. split; [reflexivity | left; reflexivity].
Qed.

(** ** The country dataset loader *)
Section CountryJsonLaws.
Import CountryJson.

Lemma field_names_eq : field_names = ["name"; "alpha-2"; "alpha-3"; "country-code"].
Proof. reflexivity. Qed.

Lemma key_values_cons (k : string) (v : json) (fs : list (string * json)) (k' : string) :
  key_values ((k, v) :: fs) k'
  = if String.eqb k k' then v :: key_values fs k' else key_values fs k'.
Proof. unfold key_values. simpl. destruct (String.eqb k k'); reflexivity. Qed.

(** [visit_map] fills the slot of each key the object gives once, with a
    string, and keeps the other slots. *)
Lemma visit_map_fill (fs : list (string * json)) : forall s0 s1 s2 s3,
  match key_values fs "name" with [] => True | [JString _] => s0 = None | _ => False end ->
  match key_values fs "alpha-2" with [] => True | [JString _] => s1 = None | _ => False end ->
  match key_values fs "alpha-3" with [] => True | [JString _] => s2 = None | _ => False end ->
  match key_values fs "country-code" with [] => True | [JString _] => s3 = None | _ => False end ->
  visit_map fs [s0; s1; s2; s3]
  = Ok [match key_values fs "name" with [JString v] => Some v | _ => s0 end;
        match key_values fs "alpha-2" with [JString v] => Some v | _ => s1 end;
        match key_values fs "alpha-3" with [JString v] => Some v | _ => s2 end;
        match key_values fs "country-code" with [JString v] => Some v | _ => s3 end].
Proof.
  induction fs as [| [k v] fs IH]; intros s0 s1 s2 s3 H0 H1 H2 H3; [reflexivity |].
  rewrite !key_values_cons in *.
  cbn [visit_map]. rewrite field_names_eq. cbn [field_index].
  destruct (String.eqb "name" k) eqn:E0;
    [apply String.eqb_eq in E0; subst k; simpl String.eqb in *; cbv iota beta in *;
     destruct v as [| | | s | |]; try (destruct (key_values fs "name"); contradiction);
     destruct (key_values fs "name") as [| w r] eqn:R; [| contradiction];
     subst s0; cbn -[key_values visit_map];
     rewrite IH by (rewrite ?R; first [exact I | assumption]); reflexivity |].
  destruct (String.eqb "alpha-2" k) eqn:E1;
    [apply String.eqb_eq in E1; subst k; simpl String.eqb in *; cbv iota beta in *;
     destruct v as [| | | s | |]; try (destruct (key_values fs "alpha-2"); contradiction);
     destruct (key_values fs "alpha-2") as [| w r] eqn:R; [| contradiction];
     subst s1; cbn -[key_values visit_map];
     rewrite IH by (rewrite ?R; first [exact I | assumption]); reflexivity |].
  destruct (String.eqb "alpha-3" k) eqn:E2;
    [apply String.eqb_eq in E2; subst k; simpl String.eqb in *; cbv iota beta in *;
     destruct v as [| | | s | |]; try (destruct (key_values fs "alpha-3"); contradiction);
     destruct (key_values fs "alpha-3") as [| w r] eqn:R; [| contradiction];
     subst s2; cbn -[key_values visit_map];
     rewrite IH by (rewrite ?R; first [exact I | assumption]); reflexivity |].
  destruct (String.eqb "country-code" k) eqn:E3;
    [apply String.eqb_eq in E3; subst k; simpl String.eqb in *; cbv iota beta in *;
     destruct v as [| | | s | |]; try (destruct (key_values fs "country-code"); contradiction);
     destruct (key_values fs "country-code") as [| w r] eqn:R; [| contradiction];
     subst s3; cbn -[key_values visit_map];
     rewrite IH by (rewrite ?R; first [exact I | assumption]); reflexivity |].
  rewrite String.eqb_sym in E0, E1, E2, E3.
  rewrite E0, E1, E2, E3 in *. cbn -[key_values visit_map].
  apply IH; assumption.
Qed.

(** [visit_map] only writes the slot of a key the object gives. *)
Lemma visit_map_keeps (fs : list (string * json)) : forall s0 s1 s2 s3 slots,
  visit_map fs [s0; s1; s2; s3] = Ok slots ->
  exists t0 t1 t2 t3, slots = [t0; t1; t2; t3]
  /\ (key_values fs "name" = [] -> t0 = s0)
  /\ (key_values fs "alpha-2" = [] -> t1 = s1)
  /\ (key_values fs "alpha-3" = [] -> t2 = s2)
  /\ (key_values fs "country-code" = [] -> t3 = s3).
Proof.
  induction fs as [| [k v] fs IH]; intros s0 s1 s2 s3 slots H.
  { injection H as <-. exists s0, s1, s2, s3. repeat split. }
  rewrite !key_values_cons.
  cbn [visit_map] in H. rewrite field_names_eq in H. cbn [field_index] in H.
  destruct (String.eqb "name" k) eqn:E0.
  { apply String.eqb_eq in E0. subst k. simpl String.eqb. cbv iota beta.
    destruct s0; cbn -[visit_map] in H; [discriminate |].
    destruct (as_string v) as [s | m]; cbn -[visit_map] in H; [| discriminate].
    destruct (IH _ _ _ _ _ H) as (t0 & t1 & t2 & t3 & -> & K0 & K1 & K2 & K3).
    exists t0, t1, t2, t3. repeat split; auto; discriminate. }
  destruct (String.eqb "alpha-2" k) eqn:E1.
  { apply String.eqb_eq in E1. subst k. simpl String.eqb. cbv iota beta.
    destruct s1; cbn -[visit_map] in H; [discriminate |].
    destruct (as_string v) as [s | m]; cbn -[visit_map] in H; [| discriminate].
    destruct (IH _ _ _ _ _ H) as (t0 & t1 & t2 & t3 & -> & K0 & K1 & K2 & K3).
    exists t0, t1, t2, t3. repeat split; auto; discriminate. }
  destruct (String.eqb "alpha-3" k) eqn:E2.
  { apply String.eqb_eq in E2. subst k. simpl String.eqb. cbv iota beta.
    destruct s2; cbn -[visit_map] in H; [discriminate |].
    destruct (as_string v) as [s | m]; cbn -[visit_map] in H; [| discriminate].
    destruct (IH _ _ _ _ _ H) as (t0 & t1 & t2 & t3 & -> & K0 & K1 & K2 & K3).
    exists t0, t1, t2, t3. repeat split; auto; discriminate. }
  destruct (String.eqb "country-code" k) eqn:E3.
  { apply String.eqb_eq in E3. subst k. simpl String.eqb. cbv iota beta.
    destruct s3; cbn -[visit_map] in H; [discriminate |].
    destruct (as_string v) as [s | m]; cbn -[visit_map] in H; [| discriminate].
    destruct (IH _ _ _ _ _ H) as (t0 & t1 & t2 & t3 & -> & K0 & K1 & K2 & K3).
    exists t0, t1, t2, t3. repeat split; auto; discriminate. }
  rewrite String.eqb_sym in E0, E1, E2, E3. rewrite E0, E1, E2, E3.
  cbn -[visit_map] in H. exact (IH _ _ _ _ _ H).
Qed.

Lemma deserialize_object_entry (fs : list (string * json)) (e : Country.CountryEntry) :
  object_of_entry fs e -> deserialize_entry (JObject fs) = Ok e.
Proof.
  intros (H0 & H1 & H2 & H3). unfold deserialize_entry.
  rewrite visit_map_fill by (rewrite ?H0, ?H1, ?H2, ?H3; reflexivity).
  rewrite H0, H1, H2, H3. rewrite field_names_eq. destruct e; reflexivity.
Qed.

Lemma deserialize_missing_key (fs : list (string * json)) (k : string) :
  In k field_names -> key_values fs k = [] -> exists m, deserialize_entry (JObject fs) = Err m.
Proof.
  intros Hin Hk. unfold deserialize_entry.
  destruct (visit_map fs [None; None; None; None]) as [slots | m] eqn:V; simpl; [| eauto].
  apply visit_map_keeps in V as (t0 & t1 & t2 & t3 & -> & K0 & K1 & K2 & K3).
  rewrite field_names_eq in *.
  destruct Hin as [<- | [<- | [<- | [<- | []]]]];
    [rewrite (K0 Hk) | rewrite (K1 Hk) | rewrite (K2 Hk) | rewrite (K3 Hk)];
    destruct t0, t1, t2, t3; simpl; eexists; reflexivity.
Qed.

Lemma res_mapM_ok {A B E} (f : A -> result B E) (l : list A) (ys : list B) :
  Forall2 (fun x y => f x = Ok y) l ys -> res_mapM f l = Ok ys.
Proof. induction 1 as [| x y l ys Hx _ IH]; simpl; [reflexivity | rewrite Hx, IH; reflexivity]. Qed.

Lemma res_mapM_err {A B E} (f : A -> result B E) (l : list A) (x : A) :
  In x l -> (exists m, f x = Err m) -> exists m, res_mapM f l = Err m.
Proof.
  induction l as [| a l IH]; simpl; intros Hx Hf; [contradiction |].
  destruct (f a) as [y | m] eqn:Fa; simpl; [| exists m; reflexivity].
  destruct Hx as [-> | Hx]; [destruct Hf as [m Hm]; congruence |].
  destruct (IH Hx Hf) as [m Hm]. rewrite Hm. exists m. reflexivity.
Qed.

End CountryJsonLaws.

(** C2 (amended): the country loader reads a JSON array of objects keyed
    [name], [alpha-2], [alpha-3] and [country-code] (the kebab-case
    spelling of the record's fields): an array of objects each giving
    those four keys once, with string values, in any order and beside any
    other keys, gives the records of those values, in order; an array
    holding an object that lacks one of the four keys (such as an object
    keyed [alpha_2], [alpha_3], [country_code]) is refused with a
    diagnostic. *)
Theorem parse_country_codes_kebab (dataset : string) :
  (forall objects : list (list (string * CountryJson.json) * Country.CountryEntry),
     Forall (fun oe => CountryJson.object_of_entry (fst oe) (snd oe)) objects ->
     CountryJson.parse_country_codes dataset
       (Ok (Ok (CountryJson.JArray (map (fun oe => CountryJson.JObject (fst oe)) objects))))
     = Parsed (map snd objects))
  /\ (forall items fields k,
     In (CountryJson.JObject fields) items -> In k CountryJson.field_names ->
     CountryJson.key_values fields k = [] ->
     exists e, CountryJson.parse_country_codes dataset (Ok (Ok (CountryJson.JArray items)))
       = Diagnostic ("Unable to parse the country code dataset, " ++ dataset) e).
Proof.
  split.
  - intros objects H. unfold CountryJson.parse_country_codes, CountryJson.deserialize_entries.
    rewrite (res_mapM_ok _ _ (map snd objects)); [reflexivity |].
    induction H as [| [fs e] objects He _ IH]; simpl; constructor; [| exact IH].
    exact (deserialize_object_entry fs e He).
  - intros items fields k Hin Hk Hv.
    unfold CountryJson.parse_country_codes, CountryJson.deserialize_entries.
    destruct (res_mapM_err CountryJson.deserialize_entry items _ Hin
                (deserialize_missing_key fields k Hk Hv)) as [m Hm].
    rewrite Hm. exists m. reflexivity.
Qed.

(** C2 (counterexample): an object keyed [alpha_2], [alpha_3] and
    [country_code] is refused with a diagnostic. *)
Lemma parse_country_codes_snake_case_refused :
  CountryJson.parse_country_codes "assets/country.json"
    (Ok (Ok (CountryJson.JArray
      [CountryJson.JObject
         [("name", CountryJson.JString "United States of America");
          ("alpha_2", CountryJson.JString "US");
          ("alpha_3", CountryJson.JString "USA");
          ("country_code", CountryJson.JString "840")]])))
  = Diagnostic "Unable to parse the country code dataset, assets/country.json"
      "missing field `alpha-2`".
Proof. reflexivity. Qed.

(** * Lookups in generated matches *)
Section Lookup.

Lemma run_arms_map {A} (P : A -> pat) (E : A -> expr) (l : list A) (v : value) :
  run_arms (map (fun a => RArm (P a) (E a)) l) v
  = option_map (fun a => eval_expr (E a)) (find (fun a => pat_matches (P a) v) l).
Proof.
  induction l as [| a l IH]; simpl; [reflexivity |].
  destruct (pat_matches (P a) v); [reflexivity | exact IH].
Qed.

Lemma find_exists {A} (f : A -> bool) (l : list A) (x : A) :
  In x l -> f x = true -> exists y, find f l = Some y /\ In y l /\ f y = true.
Proof.
  intros Hx Hf. destruct (find f l) as [y |] eqn:F.
  - apply find_some in F. exists y. split; [reflexivity | exact F].
  - pose proof (find_none f l F x Hx). congruence.
Qed.

Lemma nodup_map_inj {A B} (f : A -> B) (l : list A) (x y : A) :
  NoDup (map f l) -> In x l -> In y l -> f x = f y -> x = y.
Proof.
  induction l as [| a l IH]; simpl; intros Hnd Hx Hy Hf; [contradiction |].
  inversion Hnd as [| ? ? Hnotin Hnd']; subst.
  destruct Hx as [<- | Hx], Hy as [<- | Hy]; auto.
  - exfalso. apply Hnotin. rewrite Hf. apply in_map. exact Hy.
  - exfalso. apply Hnotin. rewrite <- Hf. apply in_map. exact Hx.
Qed.

Lemma find_unique {A} (f : A -> bool) (l : list A) (x : A) :
  In x l -> f x = true -> (forall y, In y l -> f y = true -> y = x) ->
  find f l = Some x.
Proof.
  intros Hx Hf Hu. destruct (find_exists f l x Hx Hf) as (y & F & Hy & Hfy).
  rewrite F. f_equal. apply Hu; assumption.
Qed.

Lemma flat_map_idents {A} (f : A -> string) (l : list A) :
  flat_map (fun r => match r with RIdent x => [x] | _ => [] end)
    (map (fun a => RIdent (f a)) l) = map f l.
Proof. induction l as [| x l IH]; simpl; [reflexivity | rewrite IH; reflexivity]. Qed.

Lemma Forall2_eq_map {A B} (g : A -> B) (l : list A) (rs : list B) :
  Forall2 (fun x y => y = g x) l rs -> rs = map g l.
Proof. induction 1; simpl; congruence. Qed.

Variable A : Type.
Variable field : A -> string.
Variable path : string.

Lemma lookup_code (l : list A) (m : string) (V : string) :
  run_match (OMatch m (map (code_arm field path) l) false) (VEnum path V)
  = option_map (fun a => VStr (field a)) (find (fun a => String.eqb (variant_of field a) V) l).
Proof.
  unfold run_match, code_arm. rewrite run_arms_map. simpl.
  rewrite String.eqb_refl. simpl.
  destruct (find _ l); reflexivity.
Qed.

Lemma lookup_parse (l : list A) (m : string) (s : string) :
  run_match (OMatch m (map (parse_arm field path) l) true) (VStr s)
  = Some (match find (fun a => String.eqb (field a) s) l with
          | Some a => VSome (VEnum path (variant_of field a))
          | None => VNone
          end).
Proof.
  unfold run_match, parse_arm. rewrite run_arms_map. simpl.
  destruct (find _ l); reflexivity.
Qed.

Lemma lookup_roundtrip (l : list A) (m1 m2 V : string) :
  In V (map (variant_of field) l) ->
  exists c, run_match (OMatch m1 (map (code_arm field path) l) false) (VEnum path V) = Some (VStr c)
  /\ run_match (OMatch m2 (map (parse_arm field path) l) true) (VStr c) = Some (VSome (VEnum path V)).
Proof.
  intros HV. apply in_map_iff in HV as (a0 & Ha0 & Hin).
  destruct (find_exists (fun a => String.eqb (variant_of field a) V) l a0 Hin)
    as (a1 & F1 & Hin1 & Heq1); [apply String.eqb_eq; exact Ha0 |].
  apply String.eqb_eq in Heq1.
  exists (field a1). rewrite lookup_code, F1. split; [reflexivity |].
  rewrite lookup_parse.
  destruct (find_exists (fun a => String.eqb (field a) (field a1)) l a1 Hin1)
    as (a2 & F2 & _ & Heq2); [apply String.eqb_refl |].
  apply String.eqb_eq in Heq2.
  rewrite F2. unfold variant_of in *. rewrite Heq2, Heq1. reflexivity.
Qed.

Lemma lookup_invalid (l : list A) (m1 m2 s : string) :
  NoDup (map (variant_of field) l) ->
  (forall V, In V (map (variant_of field) l) ->
     run_match (OMatch m1 (map (code_arm field path) l) false) (VEnum path V) <> Some (VStr s)) ->
  run_match (OMatch m2 (map (parse_arm field path) l) true) (VStr s) = Some VNone.
Proof.
  intros Hnd Hnot. rewrite lookup_parse.
  destruct (find (fun a => String.eqb (field a) s) l) as [a1 |] eqn:F; [| reflexivity].
  apply find_some in F as [Hin1 Hs]. apply String.eqb_eq in Hs.
  exfalso. apply (Hnot (variant_of field a1)); [apply in_map; exact Hin1 |].
  rewrite lookup_code.
  rewrite (find_unique (fun a => String.eqb (variant_of field a) (variant_of field a1)) l a1 Hin1);
    [simpl; rewrite Hs; reflexivity | apply String.eqb_refl |].
  intros y Hy Hfy. apply String.eqb_eq in Hfy.
  exact (nodup_map_inj (variant_of field) l y a1 Hnd Hy Hin1 Hfy).
Qed.

End Lookup.

(** * Country enumerations and lookups *)
Section CountryLookups.
Import Country.

Lemma identifier_ret (k : CountryIdentifierKey) (c : CountryEntry) (x : string) :
  identifier k c = Ret x ->
  x = variant_of (code_field k) c /\ (k = Alpha2 \/ k = Alpha3).
Proof.
  unfold identifier, Ident_new, variant_of.
  destruct k; simpl; try discriminate;
    destruct (is_ident _); simpl; intros H; try discriminate;
    injection H as <-; auto.
Qed.

Lemma country_enum_rows (ds : list CountryEntry) (k : CountryIdentifierKey) (rows : list row) :
  gen_mapM (country_row (k, false) None) ds = Ret rows ->
  rows = map (fun c => RIdent (variant_of (code_field k) c)) ds
  /\ forall c, In c ds -> identifier k c = Ret (variant_of (code_field k) c).
Proof.
  intros H. apply gen_mapM_ret in H.
  induction H as [| c r ds rows Hc _ [IH1 IH2]].
  - split; [reflexivity | intros c []].
  - cbn [country_row] in Hc.
    destruct (identifier k c) as [m | x] eqn:Hi; simpl in Hc; [discriminate |].
    injection Hc as <-. destruct (identifier_ret k c x Hi) as [-> _].
    split; [simpl; rewrite IH1; reflexivity |].
    intros c' [<- | Hin]; [exact Hi | apply IH2; exact Hin].
Qed.

Lemma country_variants (ds : list CountryEntry) (k : CountryIdentifierKey) (vs : list string) :
  variants ds k = Some vs ->
  (k = Alpha2 \/ k = Alpha3)
  /\ vs = map (variant_of (code_field k)) ds
  /\ forall c, In c ds -> identifier k c = Ret (variant_of (code_field k) c).
Proof.
  unfold variants, country_identifiers_from_table, request. cbn [lhs rhs].
  destruct (gen_mapM (country_row (k, false) None) ds) as [m | rows] eqn:G;
    simpl; [intros H; discriminate H |].
  apply country_enum_rows in G as [-> Hid].
  destruct k; simpl; intros H; try discriminate;
    injection H as <-; (split; [auto | split; [rewrite flat_map_idents; reflexivity | exact Hid]]).
Qed.

Lemma key_path_ok (k : CountryIdentifierKey) :
  k = Alpha2 \/ k = Alpha3 ->
  exists p, key_path k = Ret p /\ enum_value k = VEnum p
  /\ forall c, literal k c = Ret (LStr (code_field k c)).
Proof. intros [-> | ->]; eexists; (split; [reflexivity | split; [reflexivity | intros c; reflexivity]]). Qed.

Lemma country_match_gen (ds : list CountryEntry) (m : string)
    (l : CountryIdentifierKey * bool) (r : option (CountryIdentifierKey * bool)) (g : CountryEntry -> row) :
  (forall c, In c ds -> country_row l r c = Ret (g c)) ->
  country_identifiers_from_table ds (request None (Some m) l r) = Ret (OMatch m (map g ds) (snd l)).
Proof.
  intros H. unfold country_identifiers_from_table. simpl.
  rewrite (gen_mapM_map _ g ds H). reflexivity.
Qed.

End CountryLookups.

(** * Language enumerations and lookups *)
Section LanguageLookups.
Import Language.

Lemma in_present_values (t : list Entry) (k : LanguageTableEntryKey) (e : Entry) (v : string) :
  In e t -> get e k = Some v -> In v (present_values t k).
Proof.
  intros He Hv. unfold present_values. apply in_flat_map.
  exists e. rewrite Hv. split; [exact He | left; reflexivity].
Qed.

Lemma language_enum_rows (t : list Entry) (k : LanguageTableEntryKey) (rows : list row) :
  language_rows (k, false) None t = Ret rows ->
  rows = map (fun v => RIdent (variant_of (@id string) v)) (present_values t k)
  /\ forall v, In v (present_values t k) -> identifier v = Ret (variant_of (@id string) v).
Proof.
  revert rows. induction t as [| e t IH]; simpl; intros rows H.
  - injection H as <-. split; [reflexivity | intros v []].
  - unfold present_values; simpl; fold (present_values t k).
    destruct (get e k) as [v |] eqn:Ge; [| apply IH; exact H].
    unfold language_row, index_entry in H. rewrite Ge in H. simpl in H.
    destruct (identifier v) as [m | x] eqn:Hi; simpl in H; [discriminate |].
    destruct (language_rows (k, false) None t) as [m | rs]; simpl in H; [discriminate |].
    injection H as <-. destruct (IH rs eq_refl) as [-> IH2].
    assert (Hx : x = variant_of (@id string) v)
      by (unfold identifier, Ident_new in Hi; destruct (is_ident _);
          simpl in Hi; [injection Hi as <-; reflexivity | discriminate]).
    subst x. split; [reflexivity |].
    intros w [<- | Hw]; [exact Hi | apply IH2; exact Hw].
Qed.

Lemma language_variants (t : list Entry) (k : LanguageTableEntryKey) (vs : list string) :
  variants t k = Some vs ->
  k <> Name
  /\ vs = map (variant_of (@id string)) (present_values t k)
  /\ forall v, In v (present_values t k) -> identifier v = Ret (variant_of (@id string) v).
Proof.
  unfold variants, language_identifiers_from_table, request. cbn [lhs rhs].
  destruct (language_rows (k, false) None t) as [m | rows] eqn:G;
    simpl; [intros H; discriminate H |].
  apply language_enum_rows in G as [-> Hid].
  destruct k; simpl; intros H; try discriminate;
    injection H as <-;
    (split; [discriminate | split; [rewrite flat_map_idents; reflexivity | exact Hid]]).
Qed.

Lemma language_key_path_ok (k : LanguageTableEntryKey) :
  k <> Name -> exists p, key_path k = Ret p /\ enum_value k = VEnum p.
Proof. destruct k; intros Hk; try (eexists; split; reflexivity); contradiction. Qed.

Lemma language_rows_map (t : list Entry) (l : LanguageTableEntryKey * bool)
    (r : option (LanguageTableEntryKey * bool)) (g : string -> row) :
  (forall e v, In e t -> get e (fst l) = Some v -> language_row l r e = Ret (g v)) ->
  language_rows l r t = Ret (map g (present_values t (fst l))).
Proof.
  induction t as [| e t IH]; simpl; intros H; [reflexivity |].
  unfold present_values; simpl; fold (present_values t (fst l)).
  destruct (get e (fst l)) as [v |] eqn:Ge.
  - rewrite (H e v (or_introl eq_refl) Ge). simpl.
    rewrite IH by (intros e' v' He' Hv'; apply H; [right |]; assumption).
    reflexivity.
  - apply IH. intros e' v' He' Hv'. apply H; [right |]; assumption.
Qed.

Lemma language_match_gen (t : list Entry) (m : string)
    (l : LanguageTableEntryKey * bool) (r : option (LanguageTableEntryKey * bool))
    (g : string -> row) :
  (forall e v, In e t -> get e (fst l) = Some v -> language_row l r e = Ret (g v)) ->
  language_identifiers_from_table t (request None (Some m) l r)
  = Ret (OMatch m (map g (present_values t (fst l))) (snd l)).
Proof.
  intros H. unfold language_identifiers_from_table. cbn [lhs rhs request].
  rewrite (language_rows_map t l r g H). reflexivity.
Qed.

Lemma build_entry_column (raw : string) (e : Entry) (k : LanguageTableEntryKey) :
  build_entry raw = Ret e ->
  match get e k with Some v => [v] | None => [] end = column_of k raw.
Proof.
  unfold build_entry, column_of.
  destruct (split_tab raw) as [| a0 [| a1 [| a2 [| a3 [| a4 [| a5 [| a6 r]]]]]]];
    simpl; intros H; try discriminate.
  injection H as <-.
  destruct k, (Nat.eqb (String.length a1) 3), (Nat.eqb (String.length a2) 3),
    (Nat.eqb (String.length a3) 2); reflexivity.
Qed.

Lemma build_entries_present (lines : list RawLine) (t : list Entry) (k : LanguageTableEntryKey) :
  build_entries lines = Ret t -> present_values t k = column_values k lines.
Proof.
  revert t. induction lines as [| [raw | err] lines IH]; simpl; intros t H.
  - injection H as <-. reflexivity.
  - destruct (build_entry raw) as [m | e] eqn:B; simpl in H; [discriminate |].
    destruct (build_entries lines) as [m | es] eqn:Bs; simpl in H; [discriminate |].
    injection H as <-. unfold present_values; simpl; fold (present_values es k).
    rewrite (build_entry_column raw e k B), (IH es eq_refl). reflexivity.
  - exact (IH t H).
Qed.

End LanguageLookups.

(** C3 (amended): an enumeration request builds one variant per record, in
    dataset order and without merging repeated values.  For countries
    every record contributes, none being skipped: a record whose code is
    empty makes generation panic.  For languages every record that holds
    the discriminant key contributes and the others are skipped; over a
    table read by the loader these are the lines whose column for the key
    has the length the loader requires (3 bytes for Iso639_2b and
    Iso639_2t, 2 bytes for Iso639_1). *)
Theorem enumeration_variants_in_row_order :
  (forall ds k n,
     Country.as_standard_code k <> None ->
     ((exists c, In c ds /\ Country.code_field k c = "") ->
        exists msg, Country.country_identifiers_from_table ds
                      (Country.request (Some n) None (k, false) None) = Panic msg)
     /\ (forall o,
        Country.country_identifiers_from_table ds (Country.request (Some n) None (k, false) None) = Ret o ->
        enum_variants o = Some (map (variant_of (Country.code_field k)) ds)))
  /\ (forall t k n o,
     Language.as_standard_code k <> None ->
     Language.language_identifiers_from_table t (Language.request (Some n) None (k, false) None) = Ret o ->
     enum_variants o = Some (map (variant_of (@id string)) (Language.present_values t k)))
  /\ (forall table header lines t k n o,
     Language.as_standard_code k <> None ->
     Language.parse_language_table table (Ok (header :: lines)) = Ret (Parsed t) ->
     Language.language_identifiers_from_table t (Language.request (Some n) None (k, false) None) = Ret o ->
     enum_variants o = Some (map (variant_of (@id string)) (Language.column_values k lines))).
Proof.
  assert (Hl : forall t k n o,
     Language.as_standard_code k <> None ->
     Language.language_identifiers_from_table t (Language.request (Some n) None (k, false) None) = Ret o ->
     enum_variants o = Some (map (variant_of (@id string)) (Language.present_values t k))).
  { intros d k n o Hk H.
    unfold Language.language_identifiers_from_table in H. cbn [lhs rhs Language.request] in H.
    destruct (Language.language_rows _ _ d) as [m | rows] eqn:G; simpl in H; [discriminate |].
    apply language_enum_rows in G as [-> _].
    injection H as <-. unfold assemble. cbn [enumeration lhs Language.request fst].
    destruct (Language.as_standard_code k); [| contradiction].
    simpl. rewrite flat_map_idents. reflexivity. }
  split; [| split; [exact Hl |]].
  - intros d k n Hk. split.
    + intros (c & Hc & He).
      unfold Country.country_identifiers_from_table. cbn [lhs rhs Country.request].
      destruct (gen_mapM_panic (Country.country_row (k, false) None) d c Hc) as [m Hm].
      { destruct k; simpl in He |- *;
          unfold Country.identifier; simpl; rewrite ?He; eexists; reflexivity. }
      rewrite Hm. exists m. reflexivity.
    + intros o H.
      unfold Country.country_identifiers_from_table in H. cbn [lhs rhs Country.request] in H.
      destruct (gen_mapM _ d) as [m | rows] eqn:G; simpl in H; [discriminate |].
      apply country_enum_rows in G as [-> _].
      injection H as <-. unfold assemble. cbn [enumeration lhs Country.request fst].
      destruct (Country.as_standard_code k); [| contradiction].
      simpl. rewrite flat_map_idents. reflexivity.
  - intros table header lines t k n o Hk Hp H.
    unfold Language.parse_language_table in Hp. simpl skipn in Hp.
    destruct (Language.build_entries lines) as [m | es] eqn:B; simpl in Hp; [discriminate |].
    injection Hp as <-.
    rewrite <- (build_entries_present lines es k B). exact (Hl es k n o Hk H).
Qed.

(** C3 (counterexample): a country record with an empty alpha-2 code is not
    skipped: the enumeration request panics on it. *)
Lemma country_empty_code_not_skipped :
  Country.country_identifiers_from_table
    [Country.us; {| Country.name := "Nowhere"; Country.alpha_2 := "";
                    Country.alpha_3 := "NWH"; Country.country_code := "999" |}]
    (Country.request (Some "Iso3166_1_alpha_2") None (Country.Alpha2, false) None)
  = Panic "not a valid Ident".
Proof. reflexivity. Qed.

(** C6: for every generated enumeration (country and language), parsing
    the code of a variant gives back that variant, and, the enumeration's
    variants being distinct, parsing a string that is the code of no
    variant fails with the invalid-code error. *)
Theorem code_from_str_roundtrip :
  (forall ds k vs,
     Country.variants ds k = Some vs ->
     (forall V, In V vs -> exists c,
        Country.code ds k V = Some (VStr c)
        /\ Country.from_str ds k c = Some (Ok (Country.enum_value k V)))
     /\ (NoDup vs -> forall s,
        (forall V, In V vs -> Country.code ds k V <> Some (VStr s)) ->
        Country.from_str ds k s = Some (Err (Country.InvalidCountryCode s))))
  /\ (forall t k vs,
     Language.variants t k = Some vs ->
     (forall V, In V vs -> exists c,
        Language.code t k V = Some (VStr c)
        /\ Language.from_str t k c = Some (Ok (Language.enum_value k V)))
     /\ (NoDup vs -> forall s,
        (forall V, In V vs -> Language.code t k V <> Some (VStr s)) ->
        Language.from_str t k s = Some (Err (Language.InvalidLanguageCode s)))).
Proof.
  split; intros d k vs Hv.
  - destruct (country_variants d k vs Hv) as (Hk & -> & Hid).
    destruct (key_path_ok k Hk) as (p & Hp & Hev & Hlit).
    assert (Hcode : Country.country_identifiers_from_table d
              (Country.request None (Some "&self") (k, false) (Some (k, true)))
            = Ret (OMatch "&self" (map (code_arm (Country.code_field k) p) d) false)).
    { apply country_match_gen. intros c Hc. cbn [Country.country_row].
      rewrite (Hid c Hc), Hp, Hlit. reflexivity. }
    assert (Hparse : Country.country_identifiers_from_table d
              (Country.request None (Some "s") (k, true) (Some (k, false)))
            = Ret (OMatch "s" (map (parse_arm (Country.code_field k) p) d) true)).
    { apply country_match_gen. intros c Hc. cbn [Country.country_row].
      rewrite (Hid c Hc), Hp, Hlit. reflexivity. }
    unfold Country.code, Country.from_str, Country.run. rewrite Hev, Hcode, Hparse.
    split.
    + intros V HV.
      destruct (lookup_roundtrip _ (Country.code_field k) p d "&self" "s" V HV)
        as (c & H1 & H2).
      exists c. rewrite H1, H2. split; reflexivity.
    + intros Hnd s Hnot. rewrite (lookup_invalid _ (Country.code_field k) p d "&self" "s" s Hnd);
        [reflexivity |].
      exact Hnot.
  - destruct (language_variants d k vs Hv) as (Hk & -> & Hid).
    destruct (language_key_path_ok k Hk) as (p & Hp & Hev).
    assert (Hcode : Language.language_identifiers_from_table d
              (Language.request None (Some "&self") (k, false) (Some (k, true)))
            = Ret (OMatch "&self" (map (code_arm (@id string) p) (Language.present_values d k)) false)).
    { apply language_match_gen. intros e v He Hev'. simpl in Hev'.
      unfold Language.language_row, Language.index_entry. rewrite Hev'. simpl.
      rewrite (Hid v (in_present_values d k e v He Hev')), Hp. reflexivity. }
    assert (Hparse : Language.language_identifiers_from_table d
              (Language.request None (Some "s") (k, true) (Some (k, false)))
            = Ret (OMatch "s" (map (parse_arm (@id string) p) (Language.present_values d k)) true)).
    { apply language_match_gen. intros e v He Hev'. simpl in Hev'.
      unfold Language.language_row, Language.index_entry. rewrite Hev'. simpl.
      rewrite (Hid v (in_present_values d k e v He Hev')), Hp. reflexivity. }
    unfold Language.code, Language.from_str, Language.run. rewrite Hev, Hcode, Hparse.
    split.
    + intros V HV.
      destruct (lookup_roundtrip _ (@id string) p _ "&self" "s" V HV) as (c & H1 & H2).
      exists c. rewrite H1, H2. split; reflexivity.
    + intros Hnd s Hnot. rewrite (lookup_invalid _ (@id string) p _ "&self" "s" s Hnd);
        [reflexivity |].
      exact Hnot.
Qed.

(** C5: with the two country enumerations generated (their variants
    distinct, as a compiling enumeration requires) and numeric codes that
    parse and are distinct across the dataset, every alpha-2 variant
    converts to alpha-3 and back to itself, and its numeric code parses
    back to itself. *)
Theorem alpha2_roundtrips (ds : list Country.CountryEntry) (vs ws : list string)
    (Hvs : Country.variants ds Country.Alpha2 = Some vs)
    (Hws : Country.variants ds Country.Alpha3 = Some ws)
    (Hwnd : NoDup ws)
    (Hnum : Forall (fun c => parse_u16 (Country.country_code c) <> None) ds)
    (Hnumnd : NoDup (map (fun c => parse_u16 (Country.country_code c)) ds))
    (V : string) (HV : In V vs) :
  (exists W,
     Country.convert ds Country.Alpha2 Country.Alpha3 V = Some (VEnum "Iso3166_1_alpha_3" W)
     /\ Country.convert ds Country.Alpha3 Country.Alpha2 W = Some (VEnum "Iso3166_1_alpha_2" V))
  /\ (exists n,
     Country.numeric ds Country.Alpha2 V = Some (VU16 n)
     /\ Country.try_from_u16 ds Country.Alpha2 n = Some (Ok (VEnum "Iso3166_1_alpha_2" V))).
Proof.
  destruct (country_variants ds _ vs Hvs) as (_ & -> & Hid2).
  destruct (country_variants ds _ ws Hws) as (_ & -> & Hid3).
  set (v2 := variant_of (Country.code_field Country.Alpha2)) in *.
  set (v3 := variant_of (Country.code_field Country.Alpha3)) in *.
  assert (Hlit : forall c, In c ds ->
            Country.literal Country.Numeric c = Ret (LU16 (Country.numeric_of c))).
  { intros c Hc. rewrite Forall_forall in Hnum. specialize (Hnum c Hc).
    unfold Country.literal, Country.numeric_of.
    destruct (parse_u16 (Country.country_code c)); [reflexivity | contradiction]. }
  apply in_map_iff in HV as (c0 & Hc0 & Hin0).
  destruct (find_exists (fun c => String.eqb (v2 c) V) ds c0 Hin0)
    as (c1 & F1 & Hin1 & Heq1); [apply String.eqb_eq; exact Hc0 |].
  apply String.eqb_eq in Heq1.
  split.
  - exists (v3 c1).
    unfold Country.convert, Country.run.
    rewrite (country_match_gen ds "c" _ _
               (fun c => RArm (PPath "Iso3166_1_alpha_2" (v2 c)) (EPath "Iso3166_1_alpha_3" (v3 c))))
      by (intros c Hc; cbn [Country.country_row]; rewrite (Hid2 c Hc), (Hid3 c Hc); reflexivity).
    rewrite (country_match_gen ds "c" _ _
               (fun c => RArm (PPath "Iso3166_1_alpha_3" (v3 c)) (EPath "Iso3166_1_alpha_2" (v2 c))))
      by (intros c Hc; cbn [Country.country_row]; rewrite (Hid2 c Hc), (Hid3 c Hc); reflexivity).
    unfold run_match. rewrite !run_arms_map. simpl.
    rewrite F1.
    rewrite (find_unique (fun c => String.eqb (v3 c) (v3 c1)) ds c1 Hin1);
      [simpl; rewrite Heq1; split; reflexivity | apply String.eqb_refl |].
    intros y Hy Hfy. apply String.eqb_eq in Hfy.
    exact (nodup_map_inj v3 ds y c1 Hwnd Hy Hin1 Hfy).
  - exists (Country.numeric_of c1).
    unfold Country.numeric, Country.try_from_u16, Country.run.
    rewrite (country_match_gen ds "&self" _ _
               (fun c => RArm (PPath "Iso3166_1_alpha_2" (v2 c)) (ELit (LU16 (Country.numeric_of c)))))
      by (intros c Hc; cbn [Country.country_row]; rewrite (Hid2 c Hc), (Hlit c Hc); reflexivity).
    rewrite (country_match_gen ds "c" _ _
               (fun c => RArm (PLit (LU16 (Country.numeric_of c))) (ESome (EPath "Iso3166_1_alpha_2" (v2 c)))))
      by (intros c Hc; cbn [Country.country_row]; rewrite (Hlit c Hc), (Hid2 c Hc); reflexivity).
    unfold run_match. rewrite !run_arms_map. simpl.
    rewrite F1.
    rewrite (find_unique (fun c => N.eqb (Country.numeric_of c) (Country.numeric_of c1)) ds c1 Hin1);
      [simpl; rewrite Heq1; split; reflexivity | apply N.eqb_refl |].
    intros y Hy Hfy. apply N.eqb_eq in Hfy.
    apply (nodup_map_inj _ ds y c1 Hnumnd Hy Hin1).
    rewrite Forall_forall in Hnum.
    pose proof (Hnum y Hy) as Hy'. pose proof (Hnum c1 Hin1) as Hc1'.
    unfold Country.numeric_of in Hfy.
    destruct (parse_u16 (Country.country_code y)), (parse_u16 (Country.country_code c1));
      congruence.
Qed.

(** * Instances of the theorems on concrete inputs *)

Lemma match_fallback_iff_literal_lhs_witness :
  (exists o,
     Country.country_identifiers_from_table Country.sample
       (Country.request None (Some "c") (Country.Numeric, true) (Some (Country.Alpha2, false))) = Ret o
     /\ exists rows, o = OMatch "c" rows true)
  /\ (exists o,
     Language.language_identifiers_from_table Language.sample
       (Language.request None (Some "c") (Language.Iso639_3, false) (Some (Language.Iso639_1, false))) = Ret o
     /\ exists rows, o = OMatch "c" rows false).
Proof.
  split; eexists; split; [reflexivity | | reflexivity |].
  - apply (proj1 match_fallback_iff_literal_lhs Country.sample "c"
             (Country.Numeric, true) (Some (Country.Alpha2, false))). reflexivity.
  - apply (proj2 match_fallback_iff_literal_lhs Language.sample "c"
             (Language.Iso639_3, false) (Some (Language.Iso639_1, false))). reflexivity.
Defined.

Lemma parse_country_codes_kebab_witness :
  CountryJson.parse_country_codes "assets/country.json"
    (Ok (Ok (CountryJson.JArray
      [CountryJson.JObject
         [("country-code", CountryJson.JString "840"); ("region", CountryJson.JString "Americas");
          ("alpha-3", CountryJson.JString "USA"); ("alpha-2", CountryJson.JString "US");
          ("name", CountryJson.JString "United States of America")]])))
  = Parsed [Country.us]
  /\ exists e,
     CountryJson.parse_country_codes "assets/country.json"
       (Ok (Ok (CountryJson.JArray
         [CountryJson.JObject
            [("name", CountryJson.JString "United States of America");
             ("alpha_2", CountryJson.JString "US"); ("alpha_3", CountryJson.JString "USA");
             ("country_code", CountryJson.JString "840")]])))
     = Diagnostic ("Unable to parse the country code dataset, " ++ "assets/country.json") e.
Proof.
  split.
  - apply (proj1 (parse_country_codes_kebab "assets/country.json")
             [([("country-code", CountryJson.JString "840"); ("region", CountryJson.JString "Americas");
                ("alpha-3", CountryJson.JString "USA"); ("alpha-2", CountryJson.JString "US");
                ("name", CountryJson.JString "United States of America")], Country.us)]).
    constructor; [| constructor].
    unfold CountryJson.object_of_entry; split; [| split; [| split]]; reflexivity.
  - apply (proj2 (parse_country_codes_kebab "assets/country.json") _
             [("name", CountryJson.JString "United States of America");
              ("alpha_2", CountryJson.JString "US"); ("alpha_3", CountryJson.JString "USA");
              ("country_code", CountryJson.JString "840")] "alpha-2").
    + left. reflexivity.
    + right. left. reflexivity.
    + reflexivity.
Defined.

Lemma enumeration_variants_in_row_order_witness :
  (exists msg,
     Country.country_identifiers_from_table
       [Country.us; {| Country.name := "Nowhere"; Country.alpha_2 := "";
                       Country.alpha_3 := "NWH"; Country.country_code := "999" |}]
       (Country.request (Some "Iso3166_1_alpha_2") None (Country.Alpha2, false) None) = Panic msg)
  /\ (exists o,
     Country.country_identifiers_from_table Country.sample
       (Country.request (Some "Iso3166_1_alpha_2") None (Country.Alpha2, false) None) = Ret o
     /\ enum_variants o = Some (map (variant_of (Country.code_field Country.Alpha2)) Country.sample))
  /\ (exists o,
     Language.language_identifiers_from_table Language.sample
       (Language.request (Some "Iso639_1") None (Language.Iso639_1, false) None) = Ret o
     /\ enum_variants o
        = Some (map (variant_of (@id string)) (Language.present_values Language.sample Language.Iso639_1)))
  /\ (exists o,
     Language.language_identifiers_from_table Language.sample
       (Language.request (Some "Iso639_1") None (Language.Iso639_1, false) None) = Ret o
     /\ enum_variants o
        = Some (map (variant_of (@id string))
                  (Language.column_values Language.Iso639_1 (tl Language.sample_lines)))).
Proof.
  split; [| split; [| split]].
  - apply (proj1 (proj1 enumeration_variants_in_row_order _ Country.Alpha2 "Iso3166_1_alpha_2"
                    ltac:(discriminate))).
    eexists. split; [right; left; reflexivity | reflexivity].
  - eexists; split; [reflexivity |].
    apply (proj2 (proj1 enumeration_variants_in_row_order Country.sample Country.Alpha2
                    "Iso3166_1_alpha_2" ltac:(discriminate))).
    reflexivity.
  - eexists; split; [reflexivity |].
    apply (proj1 (proj2 enumeration_variants_in_row_order) Language.sample Language.Iso639_1
             "Iso639_1"); [discriminate | reflexivity].
  - eexists; split; [reflexivity |].
    apply (proj2 (proj2 enumeration_variants_in_row_order) "assets/language.tab"
             (hd (Ok EmptyString) Language.sample_lines) (tl Language.sample_lines)
             Language.sample Language.Iso639_1 "Iso639_1");
      [discriminate | vm_compute; reflexivity | reflexivity].
Defined.

Lemma parse_language_table_short_line_witness :
  List.length (Language.split_tab "abc") < 7
  /\ Language.parse_language_table "assets/language.tab"
       (Ok (Ok "header" :: [] ++ Ok "abc" :: [])) = Panic Language.index_out_of_bounds.
Proof.
  split; [simpl; lia |].
  apply (parse_language_table_short_line "assets/language.tab" (Ok "header") [] [] "abc").
  simpl; lia.
Defined.

Lemma alpha2_roundtrips_witness :
  (exists W,
     Country.convert Country.sample Country.Alpha2 Country.Alpha3 "Us"
       = Some (VEnum "Iso3166_1_alpha_3" W)
     /\ Country.convert Country.sample Country.Alpha3 Country.Alpha2 W
       = Some (VEnum "Iso3166_1_alpha_2" "Us"))
  /\ (exists n,
     Country.numeric Country.sample Country.Alpha2 "Us" = Some (VU16 n)
     /\ Country.try_from_u16 Country.sample Country.Alpha2 n
       = Some (Ok (VEnum "Iso3166_1_alpha_2" "Us"))).
Proof.
  apply (alpha2_roundtrips Country.sample ["Fr"; "Us"] ["Fra"; "Usa"]).
  - reflexivity.
  - reflexivity.
  - repeat constructor; simpl; intuition discriminate.
  - repeat constructor; simpl; discriminate.
  - simpl. repeat constructor; simpl; intuition discriminate.
  - simpl; auto.
Defined.

Lemma code_from_str_roundtrip_witness :
  (exists c,
     Country.code Country.sample Country.Alpha2 "Us" = Some (VStr c)
     /\ Country.from_str Country.sample Country.Alpha2 c
        = Some (Ok (Country.enum_value Country.Alpha2 "Us")))
  /\ Country.from_str Country.sample Country.Alpha2 "ZZ"
     = Some (Err (Country.InvalidCountryCode "ZZ"))
  /\ (exists c,
     Language.code Language.sample Language.Iso639_1 "En" = Some (VStr c)
     /\ Language.from_str Language.sample Language.Iso639_1 c
        = Some (Ok (Language.enum_value Language.Iso639_1 "En")))
  /\ Language.from_str Language.sample Language.Iso639_1 "xx"
     = Some (Err (Language.InvalidLanguageCode "xx")).
Proof.
  split; [| split; [| split]].
  - apply (proj1 (proj1 code_from_str_roundtrip Country.sample Country.Alpha2
                    ["Fr"; "Us"] eq_refl)).
    simpl; auto.
  - apply (proj2 (proj1 code_from_str_roundtrip Country.sample Country.Alpha2
                    ["Fr"; "Us"] eq_refl)).
    + repeat constructor; simpl; intuition discriminate.
    + intros V [<- | [<- | []]]; vm_compute; intros H; discriminate H.
  - apply (proj1 (proj2 code_from_str_roundtrip Language.sample Language.Iso639_1
                    ["En"; "Fr"] eq_refl)).
    simpl; auto.
  - apply (proj2 (proj2 code_from_str_roundtrip Language.sample Language.Iso639_1
                    ["En"; "Fr"] eq_refl)).
    + repeat constructor; simpl; intuition discriminate.
    + intros V [<- | [<- | []]]; vm_compute; intros H; discriminate H.
Defined.

Lemma build_entry_columns_witness :
  exists e, Language.build_entry "eng	eng	eng	en	I	L	English" = Ret e
     /\ Language.get e Language.Iso639_3 = Some "eng"
     /\ Language.get e Language.Iso639_2b = Some "eng"
     /\ Language.get e Language.Iso639_2t = Some "eng"
     /\ Language.get e Language.Iso639_1 = Some "en"
     /\ Language.get e Language.Name = Some "English"
     /\ List.length e = 5.
Proof.
  apply (build_entry_columns "eng	eng	eng	en	I	L	English"
           "eng" "eng" "eng" "en" "I" "L" "English" []).
  reflexivity.
Defined.

Lemma ascii_formatter_non_ascii_first_witness :
  ascii_formatter (encode [233; 78; 71]%N) = encode [233; 78; 71]%N
  /\ ascii_formatter EmptyString = EmptyString.
Proof. apply ascii_formatter_non_ascii_first; [lia | reflexivity]. Defined.

Lemma country_numeric_name_panic_witness :
  exists msg, Country.country_identifiers_from_table Country.sample
    (Country.request None (Some "&self") (Country.Numeric, false) None) = Panic msg.
Proof.
  apply country_numeric_name_panic; [discriminate |].
  left. split; [left; reflexivity | left; reflexivity].
Defined.

(** * Further properties of the generator and of its callers *)

(** ** The identifier normalization *)
Section FormatterLaws.

Lemma upper_idem (b : ascii) : to_ascii_uppercase (to_ascii_uppercase b) = to_ascii_uppercase b.
Proof. destruct b as [[][][][][][][][]]; reflexivity. Qed.

Lemma lower_idem (b : ascii) : to_ascii_lowercase (to_ascii_lowercase b) = to_ascii_lowercase b.
Proof. destruct b as [[][][][][][][][]]; reflexivity. Qed.

Lemma lower_continuation (b : ascii) : is_continuation (to_ascii_lowercase b) = is_continuation b.
Proof. destruct b as [[][][][][][][][]]; reflexivity. Qed.

Lemma make_ascii_lowercase_idem (s : string) :
  make_ascii_lowercase (make_ascii_lowercase s) = make_ascii_lowercase s.
Proof. induction s as [| b s IH]; simpl; [reflexivity | rewrite lower_idem, IH; reflexivity]. Qed.

Lemma make_ascii_lowercase_length (s : string) :
  String.length (make_ascii_lowercase s) = String.length s.
Proof. induction s as [| b s IH]; simpl; [reflexivity | rewrite IH; reflexivity]. Qed.

Lemma boundary_one (c : ascii) (r : string) :
  is_char_boundary (String c r) 1
  = match r with EmptyString => true | String d _ => negb (is_continuation d) end.
Proof. destruct r; reflexivity. Qed.

Lemma boundary_one_lower (c : ascii) (r : string) :
  is_char_boundary (String c (make_ascii_lowercase r)) 1 = is_char_boundary (String c r) 1.
Proof. rewrite !boundary_one. destruct r; simpl; [reflexivity | rewrite lower_continuation; reflexivity]. Qed.

End FormatterLaws.

(** Extra: [ascii_formatter] is idempotent and keeps the byte length of
    its argument. *)
Theorem ascii_formatter_idempotent (s : string) :
  ascii_formatter (ascii_formatter s) = ascii_formatter s
  /\ String.length (ascii_formatter s) = String.length s.
Proof.
  destruct s as [| c r]; [split; reflexivity |].
  assert (Hc : forall c', is_char_boundary (String c' r) 1 = is_char_boundary (String c r) 1)
    by (intros c'; rewrite !boundary_one; reflexivity).
  assert (Hl : forall c', is_char_boundary (String c' (make_ascii_lowercase r)) 1
                          = is_char_boundary (String c r) 1)
    by (intros c'; rewrite boundary_one_lower; apply Hc).
  unfold ascii_formatter. cbv zeta.
  destruct (is_char_boundary (String c r) 1) eqn:B.
  - repeat progress (rewrite ?Hc, ?Hl; cbv iota).
    rewrite upper_idem, make_ascii_lowercase_idem. simpl.
    rewrite make_ascii_lowercase_length. split; reflexivity.
  - repeat progress (rewrite ?Hc; cbv iota). split; reflexivity.
Qed.

(** ** Key names *)

(** Extra: the key names are read ASCII-case-insensitively: a string that
    lowercases like one of the names below converts to its key, and every
    path an identifier side is emitted under ([key_path]) is such a name,
    so it converts back to the key it was produced from. *)
Theorem key_names_case_insensitive :
  (forall p k s,
     In (p, k) [("Iso3166_1_alpha_2", Country.Alpha2); ("Iso3166_1_alpha_3", Country.Alpha3);
                ("Iso3166_1_numeric", Country.Numeric); ("name", Country.Name)] ->
     make_ascii_lowercase s = make_ascii_lowercase p -> Country.try_from s = Ok k)
  /\ (forall k p, Country.key_path k = Ret p -> Country.try_from p = Ok k)
  /\ (forall p k s,
     In (p, k) [("Iso639_3", Language.Iso639_3); ("Iso639_2b", Language.Iso639_2b);
                ("Iso639_2t", Language.Iso639_2t); ("Iso639_1", Language.Iso639_1);
                ("name", Language.Name)] ->
     make_ascii_lowercase s = make_ascii_lowercase p -> Language.try_from s = Ok k)
  /\ (forall k p, Language.key_path k = Ret p -> Language.try_from p = Ok k).
Proof.
  repeat split.
  - intros p k s Hin Hs. unfold Country.try_from. rewrite Hs.
    simpl in Hin. repeat destruct Hin as [Hin | Hin]; try contradiction;
      injection Hin as <- <-; reflexivity.
  - intros k p H. destruct k; simpl in H; try discriminate; injection H as <-; reflexivity.
  - intros p k s Hin Hs. unfold Language.try_from. rewrite Hs.
    simpl in Hin. repeat destruct Hin as [Hin | Hin]; try contradiction;
      injection Hin as <- <-; reflexivity.
  - intros k p H. destruct k; simpl in H; try discriminate; injection H as <-; reflexivity.
Qed.

(** ** Parsing an invocation *)
Section ParseLaws.
Import Syntax.

Lemma parse_prefix {K} (try_from : string -> result K string) (ts : list token)
    (input : GenerationInput K) :
  parse_generation_input try_from ts = Ret (Some input) ->
  exists ts1 ts2,
    parse_enumeration (hd_error ts) ts = Some (enumeration input, ts1)
    /\ parse_match_against (hd_error ts) ts1 = Some (match_against input, ts2).
Proof.
  unfold parse_generation_input.
  destruct (parse_enumeration (hd_error ts) ts) as [[e ts1] |] eqn:E1; [| discriminate].
  destruct (parse_match_against (hd_error ts) ts1) as [[m ts2] |] eqn:E2; [| discriminate].
  intros H. exists ts1, ts2. rewrite ?E1, ?E2.
  assert (Hf : forall l r ts', finish e m l r ts' = Ret (Some input) ->
                 enumeration input = e /\ match_against input = m)
    by (intros l r [| t ts'] Hf'; simpl in Hf'; [injection Hf' as <-; split; reflexivity | discriminate]).
  destruct (parse_side try_from ts2) as [msg | [[l ts3] |]]; simpl in H; try discriminate.
  destruct ts3 as [| t ts3]; [destruct (Hf _ _ _ H) as [-> ->]; split; reflexivity |].
  destruct t; try (destruct (Hf _ _ _ H) as [-> ->]; split; reflexivity).
  destruct (parse_side try_from ts3) as [msg | [[r ts5] |]]; simpl in H; try discriminate.
  destruct (Hf _ _ _ H) as [-> ->]. split; reflexivity.
Qed.

End ParseLaws.

(** Extra: a parsed invocation never asks for both an enumeration and a
    match: the [match] keyword is looked for at the position of the
    [enum] keyword, so after an [enum Name :] prefix there is no
    scrutinee. *)
Theorem parse_enum_excludes_match {K} (try_from : string -> result K string)
    (ts : list Syntax.token) (input : GenerationInput K)
    (H : Syntax.parse_generation_input try_from ts = Ret (Some input))
    (He : enumeration input <> None) :
  match_against input = None.
Proof.
  destruct (parse_prefix try_from ts input H) as (ts1 & ts2 & E & M).
  unfold Syntax.parse_enumeration in E.
  destruct (Syntax.peek_keyword "enum" (hd_error ts)) eqn:Pe;
    [| injection E as Ee _; congruence].
  unfold Syntax.parse_match_against in M.
  replace (Syntax.peek_keyword "match" (hd_error ts)) with false in M.
  - injection M as <- _. reflexivity.
  - destruct (hd_error ts) as [[s | | | | |] |]; simpl in Pe |- *; try discriminate.
    apply String.eqb_eq in Pe. subst s. reflexivity.
Qed.

(** Extra: the invocation forms the library uses are accepted: a side is
    an identifier or a string literal naming a key, the scrutinee is
    [&self] or an identifier, and an [enum Name :] prefix takes one side. *)
Theorem parse_invocation_forms {K} (try_from : string -> result K string)
    (a b : string) (ka kb : K) (la lb : bool)
    (Ha : try_from a = Ok ka) (Hb : try_from b = Ok kb)
    (Hka : Syntax.is_keyword a = false) (Hkb : Syntax.is_keyword b = false) :
  (forall x, Syntax.is_keyword x = false ->
     Syntax.parse_generation_input try_from
       [Syntax.TIdent "match"; Syntax.TIdent x; Syntax.TColon; Syntax.side_token a la;
        Syntax.TFatArrow; Syntax.side_token b lb]
     = Ret (Some {| enumeration := None; match_against := Some x;
                    lhs := (ka, la); rhs := Some (kb, lb) |}))
  /\ Syntax.parse_generation_input try_from
       [Syntax.TIdent "match"; Syntax.TAmp; Syntax.TIdent "self"; Syntax.TColon;
        Syntax.side_token a la; Syntax.TFatArrow; Syntax.side_token b lb]
     = Ret (Some {| enumeration := None; match_against := Some "&self";
                    lhs := (ka, la); rhs := Some (kb, lb) |})
  /\ (forall n, Syntax.is_keyword n = false ->
     Syntax.parse_generation_input try_from
       [Syntax.TIdent "enum"; Syntax.TIdent n; Syntax.TColon; Syntax.side_token a la]
     = Ret (Some {| enumeration := Some n; match_against := None;
                    lhs := (ka, la); rhs := None |})).
Proof.
  split; [| split]; [intros x Hx | | intros n Hn];
    destruct la; try destruct lb;
    unfold Syntax.parse_generation_input, Syntax.side_token, Syntax.parse_enumeration,
      Syntax.parse_match_against, Syntax.parse_side, Syntax.finish; simpl;
    repeat (rewrite ?Hx, ?Hn, ?Hka, ?Hkb, ?Ha, ?Hb; simpl); reflexivity.
Qed.

(** ** Sides naming no key *)
Section SideLaws.
Import Syntax.

Lemma not_keyword_enum_match (s : string) :
  is_keyword s = false -> String.eqb s "enum" = false /\ String.eqb s "match" = false.
Proof.
  intros H. split;
    [destruct (String.eqb s "enum") eqn:E | destruct (String.eqb s "match") eqn:E];
    try reflexivity; apply String.eqb_eq in E; subst s; discriminate H.
Qed.

Lemma parse_side_err {K} (try_from : string -> result K string) (a e : string) (la : bool)
    (rest : list token) :
  try_from a = Err e -> la = true \/ is_keyword a = false ->
  parse_side try_from (side_token a la :: rest)
  = Panic "called `Result::unwrap()` on an `Err` value".
Proof.
  intros Ha [-> | Hk]; [| destruct la]; simpl; rewrite ?Hk, Ha; reflexivity.
Qed.

Lemma parse_side_ok {K} (try_from : string -> result K string) (b : string) (kb : K) (lb : bool)
    (rest : list token) :
  try_from b = Ok kb -> lb = true \/ is_keyword b = false ->
  parse_side try_from (side_token b lb :: rest) = Ret (Some ((kb, lb), rest)).
Proof.
  intros Hb [-> | Hk]; [| destruct lb]; simpl; rewrite ?Hk, Hb; reflexivity.
Qed.

(** The prefixes the parser accepts before the sides, followed by a side,
    leave that side to be parsed. *)
Lemma prefix_leaves_side (pre : list token) (s : string) (l : bool) (rest : list token) :
  (pre = [] \/ (exists x, is_keyword x = false /\ pre = [TIdent "match"; TIdent x; TColon])
   \/ pre = [TIdent "match"; TAmp; TIdent "self"; TColon] \/ pre = [TIdent "match"; TColon]
   \/ (exists n, is_keyword n = false /\ pre = [TIdent "enum"; TIdent n; TColon])) ->
  (l = true \/ is_keyword s = false) ->
  exists e ts1 m,
    parse_enumeration (hd_error (pre ++ side_token s l :: rest)) (pre ++ side_token s l :: rest)
      = Some (e, ts1)
    /\ parse_match_against (hd_error (pre ++ side_token s l :: rest)) ts1
      = Some (m, side_token s l :: rest).
Proof.
  intros Hpre Hs.
  destruct Hpre as [-> | [(x & Hx & ->) | [-> | [-> | (n & Hn & ->)]]]].
  - unfold side_token. destruct l; simpl.
    + do 3 eexists. split; reflexivity.
    + destruct Hs as [Hs | Hs]; [discriminate |].
      destruct (not_keyword_enum_match s Hs) as [E1 E2].
      unfold parse_enumeration, parse_match_against, peek_keyword. simpl.
      rewrite E1, E2. do 3 eexists. split; reflexivity.
  - unfold parse_enumeration, parse_match_against. cbn -[is_keyword].
    do 3 eexists. split; [reflexivity |]. cbn -[is_keyword]. rewrite Hx. reflexivity.
  - do 3 eexists. split; reflexivity.
  - do 3 eexists. split; reflexivity.
  - unfold parse_enumeration, parse_match_against. cbn -[is_keyword]. rewrite Hn.
    do 3 eexists. split; reflexivity.
Qed.

Lemma parse_after_prefix {K} (try_from : string -> result K string) (ts : list token)
    (e m : option string) (ts1 ts2 : list token) :
  parse_enumeration (hd_error ts) ts = Some (e, ts1) ->
  parse_match_against (hd_error ts) ts1 = Some (m, ts2) ->
  parse_generation_input try_from ts
  = (l <- parse_side try_from ts2 ;;
     match l with
     | None => Ret None
     | Some (lhs, ts3) =>
         match ts3 with
         | TFatArrow :: ts4 =>
             r <- parse_side try_from ts4 ;;
             match r with
             | None => Ret None
             | Some (rhs, ts5) => finish e m lhs (Some rhs) ts5
             end
         | _ => finish e m lhs None ts3
         end
     end).
Proof. intros E M. unfold parse_generation_input. rewrite E, M. reflexivity. Qed.

End SideLaws.

(** Extra: a side naming no key makes the parse panic (the name goes
    through [.try_into().unwrap()] as soon as it is read), whatever tokens
    follow, after any prefix the parser accepts (none, [enum N :],
    [match x :], [match &self :], [match :]): on the left side, and on the
    right side after a valid left side.  A side is a string literal, or an
    identifier that is not a keyword. *)
Theorem parse_unknown_key_panics {K} (try_from : string -> result K string)
    (a e : string) (la : bool) (Ha : try_from a = Err e)
    (Hka : la = true \/ Syntax.is_keyword a = false)
    (pre : list Syntax.token)
    (Hpre : pre = []
            \/ (exists x, Syntax.is_keyword x = false
                         /\ pre = [Syntax.TIdent "match"; Syntax.TIdent x; Syntax.TColon])
            \/ pre = [Syntax.TIdent "match"; Syntax.TAmp; Syntax.TIdent "self"; Syntax.TColon]
            \/ pre = [Syntax.TIdent "match"; Syntax.TColon]
            \/ (exists n, Syntax.is_keyword n = false
                         /\ pre = [Syntax.TIdent "enum"; Syntax.TIdent n; Syntax.TColon])) :
  (forall rest,
     Syntax.parse_generation_input try_from (pre ++ Syntax.side_token a la :: rest)
     = Panic "called `Result::unwrap()` on an `Err` value")
  /\ (forall b kb lb rest,
     try_from b = Ok kb -> lb = true \/ Syntax.is_keyword b = false ->
     Syntax.parse_generation_input try_from
       (pre ++ Syntax.side_token b lb :: Syntax.TFatArrow :: Syntax.side_token a la :: rest)
     = Panic "called `Result::unwrap()` on an `Err` value").
Proof.
  split.
  - intros rest.
    destruct (prefix_leaves_side pre a la rest Hpre Hka) as (e1 & ts1 & m & E & M).
    rewrite (parse_after_prefix try_from _ e1 m ts1 _ E M).
    rewrite (parse_side_err try_from a e la rest Ha Hka). reflexivity.
  - intros b kb lb rest Hb Hkb.
    destruct (prefix_leaves_side pre b lb (Syntax.TFatArrow :: Syntax.side_token a la :: rest)
                Hpre Hkb) as (e1 & ts1 & m & E & M).
    rewrite (parse_after_prefix try_from _ e1 m ts1 _ E M).
    rewrite (parse_side_ok try_from b kb lb _ Hb Hkb). cbn -[Syntax.parse_side].
    rewrite (parse_side_err try_from a e la rest Ha Hka). reflexivity.
Qed.

(** Extra: [match :] with no scrutinee parses, but leaves neither an
    enumeration nor a scrutinee, so both generators, when they do not
    panic on a row, emit the "not enough information" compile error. *)
Theorem match_without_scrutinee :
  (forall ts input, Syntax.parse_generation_input Country.try_from
       (Syntax.TIdent "match" :: Syntax.TColon :: ts) = Ret (Some input) ->
     forall ds o, Country.country_identifiers_from_table ds input = Ret o ->
     o = OCompileError "not enough information was provided")
  /\ (forall ts input, Syntax.parse_generation_input Language.try_from
       (Syntax.TIdent "match" :: Syntax.TColon :: ts) = Ret (Some input) ->
     forall t o, Language.language_identifiers_from_table t input = Ret o ->
     o = OCompileError "not enough information was provided").
Proof.
  split; intros ts input H d o Ho;
    destruct (parse_prefix _ _ input H) as (ts1 & ts2 & E & M);
    simpl in E; injection E as Ee <-; simpl in M; injection M as Em _.
  - unfold Country.country_identifiers_from_table in Ho.
    destruct (gen_mapM _ d); simpl in Ho; [discriminate |].
    injection Ho as <-. unfold assemble. rewrite <- Ee, <- Em. reflexivity.
  - unfold Language.language_identifiers_from_table in Ho.
    destruct (Language.language_rows _ _ d); simpl in Ho; [discriminate |].
    injection Ho as <-. unfold assemble. rewrite <- Ee, <- Em. reflexivity.
Qed.

(** ** The macro entry points *)

(** Extra: both macros load their dataset before reading their tokens:
    without [CARGO_MANIFEST_DIR], or when the dataset at
    [<dir>/assets/...] cannot be opened (a diagnostic naming that path is
    emitted), the invocation panics, whatever its tokens are. *)
Theorem macro_dataset_unavailable :
  (forall fs ts, Macro.country_identifiers None fs ts
                 = Panic "called `Result::unwrap()` on an `Err` value")
  /\ (forall fs ts, Macro.language_identifiers None fs ts
                 = Panic "called `Result::unwrap()` on an `Err` value")
  /\ (forall dir fs e, fs (Macro.path_push dir "assets/country.json") = Err e ->
     CountryJson.parse_country_codes (Macro.path_push dir "assets/country.json")
       (fs (Macro.path_push dir "assets/country.json"))
     = Diagnostic ("Unable to load the country code dataset, "
                   ++ Macro.path_push dir "assets/country.json") e
     /\ forall ts, Macro.country_identifiers (Some dir) fs ts = Panic Macro.unwrap_none)
  /\ (forall dir fs e, fs (Macro.path_push dir "assets/language.tab") = Err e ->
     Language.parse_language_table (Macro.path_push dir "assets/language.tab")
       (fs (Macro.path_push dir "assets/language.tab"))
     = Ret (Diagnostic ("Unable to load the language table, "
                        ++ Macro.path_push dir "assets/language.tab") e)
     /\ forall ts, Macro.language_identifiers (Some dir) fs ts = Panic Macro.unwrap_none).
Proof.
  split; [| split; [| split]]; try (intros; reflexivity);
    intros dir fs e He; unfold Macro.country_identifiers, Macro.language_identifiers;
    simpl; rewrite He; split; [reflexivity | intros ts | reflexivity | intros ts]; reflexivity.
Qed.

(** ** The language table *)
Section TableLaws.
Import Language.

Lemma build_entry_keys (raw : string) (e : Entry) :
  build_entry raw = Ret e -> get e Iso639_3 <> None /\ get e Name <> None.
Proof.
  unfold build_entry.
  destruct (split_tab raw) as [| a0 [| a1 [| a2 [| a3 [| a4 [| a5 [| a6 r]]]]]]];
    simpl; intros H; try discriminate.
  injection H as <-.
  destruct (Nat.eqb (String.length a1) 3), (Nat.eqb (String.length a2) 3),
    (Nat.eqb (String.length a3) 2); simpl; split; discriminate.
Qed.

Lemma build_entries_keys (lines : list RawLine) (es : list Entry) :
  build_entries lines = Ret es ->
  forall e, In e es -> get e Iso639_3 <> None /\ get e Name <> None.
Proof.
  revert es. induction lines as [| [raw | err] lines IH]; simpl; intros es H.
  - injection H as <-. intros e [].
  - destruct (build_entry raw) as [m | e0] eqn:B; simpl in H; [discriminate |].
    destruct (build_entries lines) as [m | es0]; simpl in H; [discriminate |].
    injection H as <-. intros e [<- | He]; [exact (build_entry_keys raw e0 B) |].
    exact (IH es0 eq_refl e He).
  - exact (IH es H).
Qed.

Lemma build_entries_lines (lines : list RawLine) :
  Forall (fun l => match l with Ok raw => 7 <= List.length (split_tab raw) | Err _ => True end) lines ->
  exists es, build_entries lines = Ret es
  /\ Forall2 (fun raw e => build_entry raw = Ret e)
       (flat_map (fun l => match l with Ok raw => [raw] | Err _ => [] end) lines) es.
Proof.
  induction 1 as [| [raw | err] lines Hl _ [es [IH1 IH2]]]; simpl.
  - exists []. split; constructor.
  - destruct (build_entry_outcome raw) as [[e Hr] | Hr].
    + rewrite Hr, IH1. exists (e :: es). split; [reflexivity | constructor; assumption].
    + exfalso. unfold build_entry, index_out_of_bounds in Hr.
      destruct (split_tab raw) as [| a0 [| a1 [| a2 [| a3 [| a4 [| a5 [| a6 r]]]]]]];
        simpl in Hl, Hr; try lia; discriminate.
  - exists es. split; assumption.
Qed.

Lemma build_entry_panic (raw : string) (msg : string) :
  build_entry raw = Panic msg ->
  msg = index_out_of_bounds /\ List.length (split_tab raw) < 7.
Proof.
  unfold build_entry.
  destruct (split_tab raw) as [| a0 [| a1 [| a2 [| a3 [| a4 [| a5 [| a6 r]]]]]]];
    simpl; intros H; try discriminate; injection H as <-; split; auto; lia.
Qed.

(** [build_entries] either builds one record per line read, or panics on
    a line read with fewer than 7 fields. *)
Lemma build_entries_cases (lines : list RawLine) :
  match build_entries lines with
  | Ret es =>
      Forall2 (fun raw e => build_entry raw = Ret e)
        (flat_map (fun l => match l with Ok raw => [raw] | Err _ => [] end) lines) es
  | Panic msg =>
      msg = index_out_of_bounds
      /\ exists raw, In (Ok raw) lines /\ List.length (split_tab raw) < 7
  end.
Proof.
  induction lines as [| [raw | err] lines IH]; simpl.
  - constructor.
  - destruct (build_entry raw) as [m | e] eqn:B; simpl.
    + destruct (build_entry_panic raw m B) as [Hm Hl].
      split; [exact Hm | exists raw; split; [left; reflexivity | exact Hl]].
    + destruct (build_entries lines) as [m | es]; simpl.
      * destruct IH as [Hm (r & Hr & Hl)].
        split; [exact Hm | exists r; split; [right; exact Hr | exact Hl]].
      * constructor; assumption.
  - destruct (build_entries lines) as [m | es].
    + destruct IH as [Hm (r & Hr & Hl)].
      split; [exact Hm | exists r; split; [right; exact Hr | exact Hl]].
    + exact IH.
Qed.

(** The rows of a [match x: "a" => "b"] request over a table. *)
Lemma language_rows_lit_lit (t : list Entry) (kl kr : LanguageTableEntryKey) :
  match language_rows (kl, true) (Some (kr, true)) t with
  | Panic msg => msg = "no entry found for key"
                 /\ exists e, In e t /\ get e kl <> None /\ get e kr = None
  | Ret _ => forall e, In e t -> get e kl <> None -> get e kr <> None
  end.
Proof.
  induction t as [| e t IH]; simpl; [intros e [] |].
  destruct (get e kl) as [v |] eqn:Gl.
  - unfold language_row, index_entry. rewrite Gl. simpl.
    destruct (get e kr) as [w |] eqn:Gr; simpl.
    + destruct (language_rows (kl, true) (Some (kr, true)) t) as [msg | rs]; simpl.
      * destruct IH as [Hm (e' & He' & H1 & H2)].
        split; [exact Hm | exists e'; split; [right |]; auto].
      * intros e' [<- | He'] H; [rewrite Gr; discriminate | exact (IH e' He' H)].
    + split; [reflexivity |]. exists e. split; [left; reflexivity |].
      rewrite Gl, Gr. split; [discriminate | reflexivity].
  - destruct (language_rows (kl, true) (Some (kr, true)) t) as [msg | rs].
    + destruct IH as [Hm (e' & He' & H1 & H2)].
      split; [exact Hm | exists e'; split; [right |]; auto].
    + intros e' [<- | He'] H; [rewrite Gl in H; contradiction | exact (IH e' He' H)].
Qed.

End TableLaws.

(** Extra: a request whose two sides are both literals ([match x: "a" =>
    "b"]) indexes each record holding the left column with the right
    column: over a language table it panics with "no entry found for key"
    exactly when some record holding the left column lacks the right one, and
    otherwise emits the match. *)
Theorem language_literal_rhs_missing (t : list Language.Entry)
    (kl kr : Language.LanguageTableEntryKey) (m : string) :
  (Language.language_identifiers_from_table t
     (Language.request None (Some m) (kl, true) (Some (kr, true))) = Panic "no entry found for key"
   <-> exists e, In e t /\ Language.get e kl <> None /\ Language.get e kr = None)
  /\ ((forall e, In e t -> Language.get e kl <> None -> Language.get e kr <> None) ->
     exists rows, Language.language_identifiers_from_table t
       (Language.request None (Some m) (kl, true) (Some (kr, true))) = Ret (OMatch m rows true)).
Proof.
  pose proof (language_rows_lit_lit t kl kr) as H.
  unfold Language.language_identifiers_from_table. cbn [lhs rhs Language.request].
  destruct (Language.language_rows (kl, true) (Some (kr, true)) t) as [msg | rs]; simpl.
  - destruct H as [-> Hex]. split; [split; intros _; [exact Hex | reflexivity] |].
    intros Hall. exfalso. destruct Hex as (e & He & H1 & H2).
    exact (Hall e He H1 H2).
  - split; [split; [discriminate | intros (e & He & H1 & H2); exfalso; exact (H e He H1 H2)] |].
    intros _. exists rs. reflexivity.
Qed.

(** Extra: every record the language loader produces holds an Iso639_3
    code and a Name, so literal requests whose right side is the
    Iso639_3 column or the name never panic on a missing key. *)
Theorem loaded_entries_have_code_and_name (table : string) (lines : list Language.RawLine)
    (t : list Language.Entry)
    (H : Language.parse_language_table table (Ok lines) = Ret (Parsed t)) :
  (forall e, In e t -> Language.get e Language.Iso639_3 <> None
                       /\ Language.get e Language.Name <> None)
  /\ (forall kl kr m, kr = Language.Iso639_3 \/ kr = Language.Name ->
     exists rows, Language.language_identifiers_from_table t
       (Language.request None (Some m) (kl, true) (Some (kr, true))) = Ret (OMatch m rows true)).
Proof.
  assert (Hk : forall e, In e t -> Language.get e Language.Iso639_3 <> None
                                  /\ Language.get e Language.Name <> None).
  { unfold Language.parse_language_table in H.
    destruct (Language.build_entries (skipn 1 lines)) as [msg | es] eqn:B; simpl in H;
      [discriminate |].
    injection H as <-. exact (build_entries_keys _ es B). }
  split; [exact Hk |].
  intros kl kr m Hkr.
  pose proof (language_rows_lit_lit t kl kr) as Hr.
  unfold Language.language_identifiers_from_table. cbn [lhs rhs Language.request].
  destruct (Language.language_rows (kl, true) (Some (kr, true)) t) as [msg | rs]; simpl.
  - destruct Hr as [_ (e & He & _ & Hn)]. exfalso.
    destruct (Hk e He) as [H3 HN]. destruct Hkr as [-> | ->]; contradiction.
  - exists rs. reflexivity.
Qed.

(** Extra: the language loader skips the first line whatever it is (even
    an unreadable one) and drops every other line that cannot be read; it
    then either builds one record per remaining line, in order, or, when
    some remaining line has fewer than 7 tab-separated fields, panics with
    an index out of bounds.  It builds the records exactly when every
    remaining line has at least 7 fields; an empty file gives an empty
    table. *)
Theorem parse_language_table_lines (table : string) :
  Language.parse_language_table table (Ok []) = Ret (Parsed [])
  /\ forall (first : Language.RawLine) (rest : list Language.RawLine),
     match Language.parse_language_table table (Ok (first :: rest)) with
     | Ret (Parsed es) =>
         Forall2 (fun raw e => Language.build_entry raw = Ret e)
           (flat_map (fun l => match l with Ok raw => [raw] | Err _ => [] end) rest) es
     | Ret (Diagnostic _ _) => False
     | Panic msg =>
         msg = Language.index_out_of_bounds
         /\ exists raw, In (Ok raw) rest /\ List.length (Language.split_tab raw) < 7
     end
     /\ ((exists es, Language.parse_language_table table (Ok (first :: rest)) = Ret (Parsed es))
         <-> Forall (fun l => match l with
                             | Ok raw => 7 <= List.length (Language.split_tab raw)
                             | Err _ => True end) rest).
Proof.
  split; [reflexivity |]. intros first rest.
  unfold Language.parse_language_table. simpl skipn.
  pose proof (build_entries_cases rest) as Hc.
  split.
  - destruct (Language.build_entries rest); exact Hc.
  - split.
    + intros [es Hes]. apply Forall_forall. intros [raw | err] Hin; [| exact I].
      destruct (Language.build_entries rest) as [m | es'] eqn:B; simpl in Hes; [discriminate |].
      injection Hes as <-. clear Hc.
      revert es' B. induction rest as [| l rest IH]; intros es' B; [destruct Hin |].
      destruct Hin as [Hl | Hin].
      * subst l. simpl in B. destruct (Language.build_entry raw) as [m | e] eqn:E; simpl in B;
          [discriminate |].
        unfold Language.build_entry in E.
        destruct (Language.split_tab raw) as [| a0 [| a1 [| a2 [| a3 [| a4 [| a5 [| a6 r]]]]]]];
          simpl in E |- *; try discriminate; lia.
      * destruct l as [raw' | err]; simpl in B.
        -- destruct (Language.build_entry raw'); simpl in B; [discriminate |].
           destruct (Language.build_entries rest) as [m | es2]; simpl in B; [discriminate |].
           exact (IH Hin es2 eq_refl).
        -- exact (IH Hin es' B).
    + intros Hall. destruct (build_entries_lines rest Hall) as (es & H1 & _).
      rewrite H1. exists es. reflexivity.
Qed.


(** ** Conversions between language code sets *)
Section LanguageConversion.
Import Language.

Lemma language_rows_entries (t : list Entry) (l : LanguageTableEntryKey * bool)
    (r : option (LanguageTableEntryKey * bool)) (g : Entry -> row) :
  (forall e v, In e t -> get e (fst l) = Some v -> language_row l r e = Ret (g e)) ->
  language_rows l r t = Ret (map g (filter (fun e => if get e (fst l) then true else false) t)).
Proof.
  induction t as [| e t IH]; simpl; intros H; [reflexivity |].
  destruct (get e (fst l)) as [v |] eqn:Ge.
  - rewrite (H e v (or_introl eq_refl) Ge). simpl.
    rewrite IH by (intros e' v' He' Hv'; apply (H e' v'); [right |]; assumption).
    reflexivity.
  - apply IH. intros e' v' He' Hv'. apply (H e' v'); [right |]; assumption.
Qed.

Lemma present_values_keyed (t : list Entry) (k : LanguageTableEntryKey) :
  present_values t k
  = map (fun e => match get e k with Some v => v | None => EmptyString end)
      (filter (fun e => if get e k then true else false) t).
Proof.
  induction t as [| e t IH]; [reflexivity |].
  unfold present_values in *; simpl. rewrite IH.
  destruct (get e k) eqn:G; simpl; [rewrite G |]; reflexivity.
Qed.

(** [code()] of a variant whose value is unique among the variants. *)
Lemma language_code_unique (t : list Entry) (k : LanguageTableEntryKey) (vs : list string)
    (Hvs : variants t k = Some vs) (Hnd : NoDup vs) (v : string)
    (Hv : In v (present_values t k)) :
  code t k (ascii_formatter v) = Some (VStr v).
Proof.
  destruct (language_variants t k vs Hvs) as (Hk & -> & Hid).
  destruct (language_key_path_ok k Hk) as (p & Hp & Hev).
  assert (Hcode : language_identifiers_from_table t
            (request None (Some "&self") (k, false) (Some (k, true)))
          = Ret (OMatch "&self" (map (code_arm (@id string) p) (present_values t k)) false)).
  { apply language_match_gen. intros e v' He Hev'. simpl in Hev'.
    unfold language_row, index_entry. rewrite Hev'. simpl.
    rewrite (Hid v' (in_present_values t k e v' He Hev')), Hp. reflexivity. }
  unfold code, run. rewrite Hev, Hcode, lookup_code.
  rewrite (find_unique (fun a => String.eqb (variant_of (@id string) a) (ascii_formatter v))
             (present_values t k) v Hv); [reflexivity | apply String.eqb_refl |].
  intros y Hy Hfy. apply String.eqb_eq in Hfy.
  exact (nodup_map_inj (variant_of (@id string)) _ y v Hnd Hy Hv Hfy).
Qed.

Lemma language_try_convert_entry (t : list Entry) (from to : LanguageTableEntryKey)
    (vs ws : list string) (Hvs : variants t from = Some vs) (Hws : variants t to = Some ws)
    (Hnd : NoDup vs) (e : Entry) (v : string) (He : In e t) (Hv : get e from = Some v) :
  try_convert t from to (ascii_formatter v)
  = Some (match get e to with
          | Some w => Ok (enum_value to (ascii_formatter w))
          | None => Err (NoCorrespondingLanguageCode v)
          end).
Proof.
  pose proof (in_present_values t from e v He Hv) as Hin.
  unfold try_convert. rewrite (language_code_unique t from vs Hvs Hnd v Hin).
  destruct (language_variants t from vs Hvs) as (Hkf & Evs & Hidf).
  destruct (language_variants t to ws Hws) as (Hkt & _ & Hidt).
  destruct (language_key_path_ok from Hkf) as (pf & Hpf & Hevf).
  destruct (language_key_path_ok to Hkt) as (pt & Hpt & Hevt).
  set (val := fun e => match get e from with Some v => v | None => EmptyString end).
  set (P := fun e => PPath pf (ascii_formatter (val e))).
  set (E := fun e => match get e to with
                     | Some w => ESome (EPath pt (ascii_formatter w))
                     | None => ENone end).
  assert (Hrows : language_rows (from, false) (Some (to, false)) t
            = Ret (map (fun e => RArm (P e) (E e))
                     (filter (fun e => if get e from then true else false) t))).
  { apply language_rows_entries. intros e' v' He' Hv'. simpl in Hv'.
    unfold language_row, index_entry. rewrite Hv'. simpl.
    rewrite (Hidf v' (in_present_values t from e' v' He' Hv')), Hpf. simpl.
    unfold P, E, val. rewrite Hv'.
    destruct (get e' to) as [w |] eqn:Hw; simpl; [| reflexivity].
    rewrite (Hidt w (in_present_values t to e' w He' Hw)), Hpt. reflexivity. }
  unfold run, language_identifiers_from_table. cbn [lhs rhs request].
  rewrite Hrows. simpl. rewrite Hevf. unfold run_match. rewrite run_arms_map.
  set (keyed := filter (fun e => if get e from then true else false) t) in *.
  assert (Hek : In e keyed) by (apply filter_In; rewrite Hv; split; [exact He | reflexivity]).
  assert (Hval : val e = v) by (unfold val; rewrite Hv; reflexivity).
  rewrite (find_unique (fun a => pat_matches (P a) (VEnum pf (ascii_formatter v))) keyed e Hek).
  - simpl. unfold E. rewrite Hevt.
    destruct (get e to); reflexivity.
  - unfold P. simpl. rewrite Hval, !String.eqb_refl. reflexivity.
  - intros y Hy Hfy. unfold P in Hfy. simpl in Hfy. rewrite String.eqb_refl in Hfy.
    simpl in Hfy. apply String.eqb_eq in Hfy.
    assert (Hnd' : NoDup (map (fun a => ascii_formatter (val a)) keyed)).
    { rewrite Evs, present_values_keyed, map_map in Hnd. exact Hnd. }
    apply (nodup_map_inj (fun a => ascii_formatter (val a)) keyed y e Hnd' Hy Hek).
    rewrite Hfy, Hval. reflexivity.
Qed.

End LanguageConversion.

(** Extra: [TryFrom] between two language code sets whose enumerations are
    generated (source variants distinct): the variant of a record's
    source code converts to the variant of that record's target code,
    and, when the record has no target code, fails with
    [NoCorrespondingLanguageCode] carrying the source code. *)
Theorem language_try_from_outcome (t : list Language.Entry)
    (from to : Language.LanguageTableEntryKey) (vs ws : list string)
    (Hvs : Language.variants t from = Some vs) (Hws : Language.variants t to = Some ws)
    (Hnd : NoDup vs) (e : Language.Entry) (v : string) (He : In e t)
    (Hv : Language.get e from = Some v) :
  Language.try_convert t from to (ascii_formatter v)
  = Some (match Language.get e to with
          | Some w => Ok (Language.enum_value to (ascii_formatter w))
          | None => Err (Language.NoCorrespondingLanguageCode v)
          end).
Proof. exact (language_try_convert_entry t from to vs ws Hvs Hws Hnd e v He Hv). Qed.

(** Extra: with both enumerations generated and their variants distinct,
    converting a record's code to another code set and back gives the
    original variant. *)
Theorem language_try_from_roundtrip (t : list Language.Entry)
    (from to : Language.LanguageTableEntryKey) (vs ws : list string)
    (Hvs : Language.variants t from = Some vs) (Hws : Language.variants t to = Some ws)
    (Hndv : NoDup vs) (Hndw : NoDup ws) (e : Language.Entry) (v w : string) (He : In e t)
    (Hv : Language.get e from = Some v) (Hw : Language.get e to = Some w) :
  Language.try_convert t from to (ascii_formatter v)
    = Some (Ok (Language.enum_value to (ascii_formatter w)))
  /\ Language.try_convert t to from (ascii_formatter w)
    = Some (Ok (Language.enum_value from (ascii_formatter v))).
Proof.
  rewrite (language_try_convert_entry t from to vs ws Hvs Hws Hndv e v He Hv),
    (language_try_convert_entry t to from ws vs Hws Hvs Hndw e w He Hw), Hv, Hw.
  split; reflexivity.
Qed.

(** ** Country numeric codes *)
Section CountryNumeric.
Import Country.

Lemma country_row_numeric_unparsable (c : CountryEntry) (l : CountryIdentifierKey * bool)
    (r : option (CountryIdentifierKey * bool)) :
  parse_u16 (country_code c) = None ->
  l = (Numeric, true) \/ r = Some (Numeric, true) ->
  exists msg, country_row l r c = Panic msg.
Proof.
  intros Hp Hl. destruct l as [lk lb].
  destruct Hl as [Hl | ->].
  - injection Hl as -> ->.
    destruct r as [[rk [|]] |]; simpl; unfold literal, identifier; rewrite ?Hp; simpl; eauto.
  - destruct lb; simpl; unfold literal, identifier;
      destruct lk; simpl; rewrite ?Hp; simpl; repeat match goal with
             | |- context [gen_bind ?m _] => destruct m; simpl
             end; try rewrite ?Hp; simpl; eauto.
Qed.

End CountryNumeric.

(** Extra: over a country dataset whose numeric codes all parse and whose
    enumeration for the key is generated, [TryFrom<u16>] returns the
    variant of the first record with that numeric code, and for a number
    no record has, [InvalidCountryCode] carrying the number in decimal. *)
Theorem country_try_from_u16_lookup (ds : list Country.CountryEntry)
    (k : Country.CountryIdentifierKey) (vs : list string)
    (Hvs : Country.variants ds k = Some vs)
    (Hnum : Forall (fun c => parse_u16 (Country.country_code c) <> None) ds) (n : N) :
  Country.try_from_u16 ds k n
  = Some (match find (fun c => N.eqb (Country.numeric_of c) n) ds with
          | Some c => Ok (Country.enum_value k (variant_of (Country.code_field k) c))
          | None => Err (Country.InvalidCountryCode (NilEmpty.string_of_uint (N.to_uint n)))
          end).
Proof.
  destruct (country_variants ds k vs Hvs) as (Hk & _ & Hid).
  destruct (key_path_ok k Hk) as (p & Hp & Hev & _).
  assert (Hlit : forall c, In c ds ->
            Country.literal Country.Numeric c = Ret (LU16 (Country.numeric_of c))).
  { intros c Hc. rewrite Forall_forall in Hnum. specialize (Hnum c Hc).
    unfold Country.literal, Country.numeric_of.
    destruct (parse_u16 (Country.country_code c)); [reflexivity | contradiction]. }
  unfold Country.try_from_u16, Country.run.
  rewrite (country_match_gen ds "c" _ _
             (fun c => RArm (PLit (LU16 (Country.numeric_of c)))
                         (ESome (EPath p (variant_of (Country.code_field k) c)))))
    by (intros c Hc; cbn [Country.country_row]; rewrite (Hlit c Hc), (Hid c Hc), Hp; reflexivity).
  unfold run_match. rewrite run_arms_map. simpl.
  rewrite Hev. destruct (find _ ds); reflexivity.
Qed.

(** Extra: a record whose numeric code does not parse as a [u16] (empty,
    not decimal, or above 65535) makes every request that uses the
    numeric code as a literal side panic. *)
Theorem country_numeric_unparsable_panics (ds : list Country.CountryEntry)
    (input : GenerationInput Country.CountryIdentifierKey) (c : Country.CountryEntry)
    (Hc : In c ds) (Hp : parse_u16 (Country.country_code c) = None)
    (Hreq : lhs input = (Country.Numeric, true) \/ rhs input = Some (Country.Numeric, true)) :
  exists msg, Country.country_identifiers_from_table ds input = Panic msg.
Proof.
  unfold Country.country_identifiers_from_table.
  destruct (gen_mapM_panic _ ds c Hc (country_row_numeric_unparsable c _ _ Hp Hreq))
    as [m Hm].
  rewrite Hm. exists m. reflexivity.
Qed.

(** ** Names *)

(** Extra: [name()] of a generated variant (variants distinct) is the name
    of the record the variant comes from, for countries and, over a table
    produced by the loader, for languages. *)
Theorem name_lookup :
  (forall ds k vs, Country.variants ds k = Some vs -> NoDup vs ->
     forall c, In c ds ->
     Country.name_method ds k (variant_of (Country.code_field k) c)
     = Some (VStr (Country.name c)))
  /\ (forall table lines t,
     Language.parse_language_table table (Ok lines) = Ret (Parsed t) ->
     forall k vs, Language.variants t k = Some vs -> NoDup vs ->
     forall e v, In e t -> Language.get e k = Some v ->
     exists nm, Language.get e Language.Name = Some nm
     /\ Language.name_method t k (ascii_formatter v) = Some (VStr nm)).
Proof.
  split.
  - intros ds k vs Hvs Hnd c Hc.
    destruct (country_variants ds k vs Hvs) as (Hk & Evs & Hid).
    destruct (key_path_ok k Hk) as (p & Hp & Hev & _).
    set (vc := variant_of (Country.code_field k)) in *.
    unfold Country.name_method, Country.run.
    rewrite (country_match_gen ds "&self" _ _
               (fun c => RArm (PPath p (vc c)) (ELit (LStr (Country.name c)))))
      by (intros c' Hc'; cbn [Country.country_row]; rewrite (Hid c' Hc'), Hp; reflexivity).
    rewrite Hev. unfold run_match. rewrite run_arms_map.
    rewrite (find_unique (fun a => pat_matches (PPath p (vc a)) (VEnum p (vc c))) ds c Hc).
    + reflexivity.
    + simpl. rewrite !String.eqb_refl. reflexivity.
    + intros y Hy Hfy. simpl in Hfy. rewrite String.eqb_refl in Hfy. simpl in Hfy.
      apply String.eqb_eq in Hfy. subst vs.
      exact (nodup_map_inj vc ds y c Hnd Hy Hc Hfy).
  - intros table lines t Ht k vs Hvs Hnd e v He Hv.
    assert (Hkeys : forall e, In e t -> Language.get e Language.Iso639_3 <> None
                                        /\ Language.get e Language.Name <> None).
    { unfold Language.parse_language_table in Ht.
      destruct (Language.build_entries (skipn 1 lines)) as [msg | es] eqn:B; simpl in Ht;
        [discriminate |].
      injection Ht as <-. exact (build_entries_keys _ es B). }
    destruct (Language.get e Language.Name) as [nm |] eqn:Hn;
      [| exfalso; exact (proj2 (Hkeys e He) Hn)].
    exists nm. split; [reflexivity |].
    destruct (language_variants t k vs Hvs) as (Hk & Evs & Hid).
    destruct (language_key_path_ok k Hk) as (p & Hp & Hev).
    set (val := fun e => match Language.get e k with Some v => v | None => EmptyString end).
    set (nam := fun e => match Language.get e Language.Name with
                         | Some v => v | None => EmptyString end).
    assert (Hrows : Language.language_rows (k, false) (Some (Language.Name, true)) t
              = Ret (map (fun e => RArm (PPath p (ascii_formatter (val e))) (ELit (LStr (nam e))))
                       (filter (fun e => if Language.get e k then true else false) t))).
    { apply language_rows_entries. intros e' v' He' Hv'. simpl in Hv'.
      unfold Language.language_row, Language.index_entry. rewrite Hv'. simpl.
      rewrite (Hid v' (in_present_values t k e' v' He' Hv')), Hp. simpl.
      destruct (Language.get e' Language.Name) as [n' |] eqn:Hn';
        [| exfalso; exact (proj2 (Hkeys e' He') Hn')].
      simpl. unfold val, nam. rewrite Hv', Hn'. reflexivity. }
    unfold Language.name_method, Language.run, Language.language_identifiers_from_table.
    cbn [lhs rhs Language.request]. rewrite Hrows. simpl. rewrite Hev.
    unfold run_match. rewrite run_arms_map.
    set (keyed := filter (fun e => if Language.get e k then true else false) t) in *.
    assert (Hek : In e keyed) by (apply filter_In; rewrite Hv; split; [exact He | reflexivity]).
    assert (Hval : val e = v) by (unfold val; rewrite Hv; reflexivity).
    rewrite (find_unique (fun a => pat_matches (PPath p (ascii_formatter (val a)))
                                     (VEnum p (ascii_formatter v))) keyed e Hek).
    + simpl. unfold nam. rewrite Hn. reflexivity.
    + simpl. rewrite Hval, !String.eqb_refl. reflexivity.
    + intros y Hy Hfy. simpl in Hfy. rewrite String.eqb_refl in Hfy.
      simpl in Hfy. apply String.eqb_eq in Hfy.
      assert (Hnd' : NoDup (map (fun a => ascii_formatter (val a)) keyed)).
      { rewrite Evs, present_values_keyed, map_map in Hnd. exact Hnd. }
      apply (nodup_map_inj (fun a => ascii_formatter (val a)) keyed y e Hnd' Hy Hek).
      rewrite Hfy, Hval. reflexivity.
Qed.

(** ** Instances of the further theorems on concrete inputs *)

Lemma key_names_case_insensitive_witness :
  Country.try_from "ISO3166_1_Alpha_2" = Ok Country.Alpha2
  /\ Country.try_from "Iso3166_1_alpha_3" = Ok Country.Alpha3
  /\ Language.try_from "ISO639_2B" = Ok Language.Iso639_2b.
Proof.
  destruct key_names_case_insensitive as (H1 & H2 & H3 & _).
  split; [| split].
  - apply (H1 "Iso3166_1_alpha_2"); [left; reflexivity | reflexivity].
  - apply H2. reflexivity.
  - apply (H3 "Iso639_2b"); [simpl; auto | reflexivity].
Defined.

Lemma parse_enum_excludes_match_witness :
  match_against {| enumeration := Some "Iso3166_1_alpha_2"; match_against := None;
                   lhs := (Country.Alpha2, false); rhs := None |} = None.
Proof.
  apply (parse_enum_excludes_match Country.try_from
           [Syntax.TIdent "enum"; Syntax.TIdent "Iso3166_1_alpha_2"; Syntax.TColon;
            Syntax.TIdent "iso3166_1_alpha_2"]).
  - reflexivity.
  - discriminate.
Defined.

Lemma parse_invocation_forms_witness :
  Syntax.parse_generation_input Country.try_from
    [Syntax.TIdent "match"; Syntax.TIdent "c"; Syntax.TColon;
     Syntax.TIdent "Iso3166_1_alpha_2"; Syntax.TFatArrow; Syntax.TStr "Iso3166_1_numeric"]
  = Ret (Some {| enumeration := None; match_against := Some "c";
                 lhs := (Country.Alpha2, false); rhs := Some (Country.Numeric, true) |}).
Proof.
  destruct (parse_invocation_forms Country.try_from "Iso3166_1_alpha_2" "Iso3166_1_numeric"
              Country.Alpha2 Country.Numeric false true
              ltac:(reflexivity) ltac:(reflexivity) ltac:(reflexivity) ltac:(reflexivity))
    as [H _].
  apply (H "c"). reflexivity.
Defined.

Lemma parse_unknown_key_panics_witness :
  Syntax.parse_generation_input Country.try_from
    [Syntax.TIdent "enum"; Syntax.TIdent "Iso3166_1_alpha_2"; Syntax.TColon;
     Syntax.TStr "alpha2"; Syntax.TOther]
  = Panic "called `Result::unwrap()` on an `Err` value"
  /\ Syntax.parse_generation_input Country.try_from
    [Syntax.TIdent "match"; Syntax.TAmp; Syntax.TIdent "self"; Syntax.TColon;
     Syntax.TIdent "iso3166_1_alpha_2"; Syntax.TFatArrow; Syntax.TIdent "alpha2"]
  = Panic "called `Result::unwrap()` on an `Err` value".
Proof.
  split.
  - apply (proj1 (parse_unknown_key_panics Country.try_from "alpha2"
                    "unable to find a matching variant" true ltac:(reflexivity)
                    (or_introl eq_refl)
                    [Syntax.TIdent "enum"; Syntax.TIdent "Iso3166_1_alpha_2"; Syntax.TColon]
                    (or_intror (or_intror (or_intror (or_intror
                       (ex_intro _ "Iso3166_1_alpha_2" (conj eq_refl eq_refl)))))))
             [Syntax.TOther]).
  - apply (proj2 (parse_unknown_key_panics Country.try_from "alpha2"
                    "unable to find a matching variant" false ltac:(reflexivity)
                    (or_intror eq_refl)
                    [Syntax.TIdent "match"; Syntax.TAmp; Syntax.TIdent "self"; Syntax.TColon]
                    (or_intror (or_intror (or_introl eq_refl))))
             "iso3166_1_alpha_2" Country.Alpha2 false []);
      [reflexivity | right; reflexivity].
Defined.

Lemma match_without_scrutinee_witness :
  exists input o,
    Syntax.parse_generation_input Country.try_from
      [Syntax.TIdent "match"; Syntax.TColon; Syntax.TStr "Iso3166_1_alpha_2"] = Ret (Some input)
    /\ Country.country_identifiers_from_table Country.sample input = Ret o
    /\ o = OCompileError "not enough information was provided".
Proof.
  eexists; eexists; split; [vm_compute; reflexivity |]; split; [vm_compute; reflexivity |].
  apply (proj1 match_without_scrutinee [Syntax.TStr "Iso3166_1_alpha_2"] _ eq_refl
           Country.sample _ eq_refl).
Defined.

Lemma macro_dataset_unavailable_witness :
  Macro.country_identifiers (Some "/src/iso")
    (fun _ => Err "No such file or directory (os error 2)") [] = Panic Macro.unwrap_none
  /\ Macro.language_identifiers (Some "/src/iso/")
    (fun _ => Err "No such file or directory (os error 2)") [] = Panic Macro.unwrap_none.
Proof.
  destruct macro_dataset_unavailable as (_ & _ & Hc & Hl).
  split.
  - apply (proj2 (Hc "/src/iso" _ "No such file or directory (os error 2)" eq_refl)).
  - apply (proj2 (Hl "/src/iso/" _ "No such file or directory (os error 2)" eq_refl)).
Defined.

Lemma language_literal_rhs_missing_witness :
  Language.language_identifiers_from_table Language.sample
    (Language.request None (Some "c") (Language.Iso639_3, true) (Some (Language.Iso639_1, true)))
  = Panic "no entry found for key"
  /\ exists rows, Language.language_identifiers_from_table Language.sample
    (Language.request None (Some "c") (Language.Iso639_1, true) (Some (Language.Iso639_2b, true)))
  = Ret (OMatch "c" rows true).
Proof.
  split.
  - apply (proj2 (proj1 (language_literal_rhs_missing Language.sample
                           Language.Iso639_3 Language.Iso639_1 "c"))).
    exists (hd [] Language.sample).
    split; [vm_compute; left; reflexivity | split; vm_compute; [discriminate | reflexivity]].
  - apply (proj2 (language_literal_rhs_missing Language.sample
                    Language.Iso639_1 Language.Iso639_2b "c")).
    vm_compute. intros e He Hl.
    repeat destruct He as [<- | He]; try contradiction; try discriminate; exact Hl.
Defined.

Lemma loaded_entries_have_code_and_name_witness :
  exists rows, Language.language_identifiers_from_table Language.sample
    (Language.request None (Some "&self") (Language.Iso639_1, true) (Some (Language.Name, true)))
  = Ret (OMatch "&self" rows true).
Proof.
  apply (proj2 (loaded_entries_have_code_and_name "assets/language.tab"
                  Language.sample_lines Language.sample ltac:(vm_compute; reflexivity))).
  right. reflexivity.
Defined.

Lemma parse_language_table_lines_witness :
  Forall2 (fun raw e => Language.build_entry raw = Ret e)
    ["eng	eng	eng	en	I	L	English	"]
    (match Language.parse_language_table "assets/language.tab"
             (Ok [Err "stream did not contain valid UTF-8";
                  Ok "eng	eng	eng	en	I	L	English	"; Err "stream did not contain valid UTF-8"])
     with Ret (Parsed es) => es | _ => [] end)
  /\ exists es,
     Language.parse_language_table "assets/language.tab"
       (Ok [Err "stream did not contain valid UTF-8";
            Ok "eng	eng	eng	en	I	L	English	"; Err "stream did not contain valid UTF-8"])
     = Ret (Parsed es).
Proof.
  destruct (parse_language_table_lines "assets/language.tab") as [_ H].
  destruct (H (Err "stream did not contain valid UTF-8")
              [Ok "eng	eng	eng	en	I	L	English	"; Err "stream did not contain valid UTF-8"])
    as [H1 [_ H2]].
  split.
  - exact H1.
  - apply H2. constructor; [vm_compute; lia | constructor; [exact I | constructor]].
Defined.

Lemma language_try_from_outcome_witness :
  Language.try_convert Language.sample Language.Iso639_3 Language.Iso639_1 (ascii_formatter "aaa")
  = Some (Err (Language.NoCorrespondingLanguageCode "aaa")).
Proof.
  rewrite (language_try_from_outcome Language.sample Language.Iso639_3 Language.Iso639_1
             ["Aaa"; "Eng"; "Fra"] ["En"; "Fr"]
             ltac:(vm_compute; reflexivity) ltac:(vm_compute; reflexivity)
             ltac:(repeat constructor; simpl; intuition discriminate)
             (hd [] Language.sample) "aaa"
             ltac:(vm_compute; left; reflexivity) ltac:(vm_compute; reflexivity)).
  vm_compute. reflexivity.
Defined.

Lemma language_try_from_roundtrip_witness :
  Language.try_convert Language.sample Language.Iso639_1 Language.Iso639_2b (ascii_formatter "en")
    = Some (Ok (Language.enum_value Language.Iso639_2b (ascii_formatter "eng")))
  /\ Language.try_convert Language.sample Language.Iso639_2b Language.Iso639_1 (ascii_formatter "eng")
    = Some (Ok (Language.enum_value Language.Iso639_1 (ascii_formatter "en"))).
Proof.
  apply (language_try_from_roundtrip Language.sample Language.Iso639_1 Language.Iso639_2b
           ["En"; "Fr"] ["Eng"; "Fre"]
           ltac:(vm_compute; reflexivity) ltac:(vm_compute; reflexivity)
           ltac:(repeat constructor; simpl; intuition discriminate)
           ltac:(repeat constructor; simpl; intuition discriminate)
           (nth 1 Language.sample []) "en" "eng"
           ltac:(vm_compute; right; left; reflexivity)
           ltac:(vm_compute; reflexivity) ltac:(vm_compute; reflexivity)).
Defined.

Lemma country_try_from_u16_lookup_witness :
  Country.try_from_u16 Country.sample Country.Alpha2 999
  = Some (Err (Country.InvalidCountryCode "999")).
Proof.
  rewrite (country_try_from_u16_lookup Country.sample Country.Alpha2 ["Fr"; "Us"]
             ltac:(vm_compute; reflexivity)
             ltac:(repeat constructor; vm_compute; discriminate) 999).
  vm_compute. reflexivity.
Defined.

Lemma country_numeric_unparsable_panics_witness :
  exists msg, Country.country_identifiers_from_table
    [Country.us; {| Country.name := "Nowhere"; Country.alpha_2 := "NW";
                    Country.alpha_3 := "NWH"; Country.country_code := "" |}]
    (Country.request None (Some "&self") (Country.Alpha2, false) (Some (Country.Numeric, true)))
  = Panic msg.
Proof.
  apply (country_numeric_unparsable_panics _ _
           {| Country.name := "Nowhere"; Country.alpha_2 := "NW";
              Country.alpha_3 := "NWH"; Country.country_code := "" |}).
  - right. left. reflexivity.
  - reflexivity.
  - right. reflexivity.
Defined.

Lemma name_lookup_witness :
  Country.name_method Country.sample Country.Alpha2 (variant_of (Country.code_field Country.Alpha2) Country.us)
    = Some (VStr "United States of America")
  /\ exists nm, Language.get (nth 1 Language.sample []) Language.Name = Some nm
     /\ Language.name_method Language.sample Language.Iso639_1 (ascii_formatter "en") = Some (VStr nm).
Proof.
  destruct name_lookup as [Hc Hl]. split.
  - apply (Hc Country.sample Country.Alpha2 ["Fr"; "Us"] ltac:(vm_compute; reflexivity)
             ltac:(repeat constructor; simpl; intuition discriminate) Country.us).
    right. left. reflexivity.
  - apply (Hl "assets/language.tab" Language.sample_lines Language.sample
             ltac:(vm_compute; reflexivity) Language.Iso639_1 ["En"; "Fr"]
             ltac:(vm_compute; reflexivity)
             ltac:(repeat constructor; simpl; intuition discriminate)).
    + vm_compute. right. left. reflexivity.
    + vm_compute. reflexivity.
Defined.

(** Extra: for a string whose first character is ASCII, [ascii_formatter]
    uppercases that first character and ASCII-lowercases the remaining
    bytes; non-ASCII bytes are left unchanged by both case maps. *)
Theorem ascii_formatter_ascii_first (u : N) (cs : list N)
    (Hu : (u < 128)%N) (Hcs : Forall (fun c => is_scalar c = true) cs) :
  ascii_formatter (encode (u :: cs))
    = String (to_ascii_uppercase (ascii_of_N u)) (make_ascii_lowercase (encode cs))
  /\ (forall b, (128 <= N_of_ascii b)%N ->
        to_ascii_uppercase b = b /\ to_ascii_lowercase b = b).
Proof.
  split; [| exact ascii_bytes_fixed].
  unfold encode; fold encode. unfold encode_char.
  replace (u <? 128)%N with true by (symmetry; apply N.ltb_lt; exact Hu).
  unfold byte. simpl append.
  assert (Hb : is_char_boundary (String (ascii_of_N u) (encode cs)) 1 = true
            /\ forall c, is_char_boundary (String c (encode cs)) 1
                    = is_char_boundary (String (ascii_of_N u) (encode cs)) 1).
  { destruct (encode_head cs Hcs) as [E | (b & r & E & Hb)]; rewrite E;
      unfold is_char_boundary; simpl; [split; reflexivity |].
    rewrite Hb. split; reflexivity. }
  destruct Hb as [Hb Hc]. unfold ascii_formatter.
  rewrite Hb, Hc, Hb. reflexivity.
Qed.

Lemma ascii_formatter_multibyte_first_skips_witness :
  ascii_formatter (encode [233; 78; 71]%N) = encode [233; 78; 71]%N
  /\ ascii_formatter (encode [233; 78; 71]%N) <> encode (title_case_spec [233; 78; 71]%N).
Proof.
  exact (ascii_formatter_multibyte_first_skips 233 [78; 71]%N ltac:(lia) ltac:(reflexivity)
           ltac:(constructor; lia)).
Defined.

Lemma ascii_formatter_ascii_first_witness :
  ascii_formatter (encode [69; 78; 71]%N) = "Eng".
Proof.
  destruct (ascii_formatter_ascii_first 69 [78; 71]%N) as [H _];
    [lia | repeat constructor |].
  rewrite H. reflexivity.
Defined.
